(** * autograding-junit4: the test-output interpretation of [src/main.js]

    A shallow embedding of [getInputs], [setup], [build] and [run] of
    [src/main.js], together with the part of the ECMAScript string and
    regular-expression semantics those functions rely on, and the properties
    of the grading report that follow from the code.

    Conventions of the embedding:
    - a JavaScript string is the list of its UTF-16 code units ([jsstring]);
    - a JavaScript number is an IEEE-754 binary64 value ([float]);
    - an exception is an explicit [Throw] completion, and the calls of
      [core.setOutput] are collected, in order, in a list (the sink);
    - the values of the inputs of the action ([core.getInput] reads them
      from the environment) and the outcomes of the child processes
      ([spawnSync], [execSync]: a result or an exception) are inputs of the
      model;
    - writes to the console are not part of the model, except for the rows
      pushed to the console table, which the loop over the failure blocks
      returns next to the HTML rows of the report.

    The file has three parts: the embedding (strings, regular expressions,
    numbers, the report and [src/main.js] itself), a declarative reading of
    the patterns with the facts that tie the matcher to it, and the
    properties of [getInputs], [run] and the script. *)

From Stdlib Require Import Ascii String DecimalString.
From Stdlib Require Import List NArith ZArith Lia Bool Floats.
Import ListNotations.

Set Implicit Arguments.

(** ** JavaScript strings *)

Module JsString.

Definition char := N.
Definition jsstring := list char.

(** The code units of an ASCII literal of the source. *)
Definition js (s : string) : jsstring :=
  List.map N_of_ascii (list_ascii_of_string s).
Arguments js s%_string.

Definition LF : char := 10%N.
Definition CR : char := 13%N.
Definition DQUOTE : char := 34%N.

Definition char_eqb (a b : char) : bool := N.eqb a b.

Fixpoint jsstring_eqb (s t : jsstring) : bool :=
  match s, t with
  | [], [] => true
  | a :: s', b :: t' => char_eqb a b && jsstring_eqb s' t'
  | _, _ => false
  end.

(** ECMAScript LineTerminator: LF, CR, LS, PS. *)
Definition isLineTerminator (c : char) : bool :=
  (N.eqb c 10 || N.eqb c 13 || N.eqb c 8232 || N.eqb c 8233)%N.

(** ECMAScript WhiteSpace and LineTerminator: the class [\s] of a regular
    expression and the code units removed by [String.prototype.trim]. *)
Definition isWhiteSpace (c : char) : bool :=
  ((N.leb 9 c && N.leb c 13) || N.eqb c 32 || N.eqb c 160 || N.eqb c 5760
   || (N.leb 8192 c && N.leb c 8202) || N.eqb c 8232 || N.eqb c 8233
   || N.eqb c 8239 || N.eqb c 8287 || N.eqb c 12288 || N.eqb c 65279)%N.

Definition isDigit (c : char) : bool := (N.leb 48 c && N.leb c 57)%N.

Fixpoint trimStart (s : jsstring) : jsstring :=
  match s with
  | c :: s' => if isWhiteSpace c then trimStart s' else s
  | [] => []
  end.

Definition trimEnd (s : jsstring) : jsstring := rev (trimStart (rev s)).

(** [String.prototype.trim]. *)
Definition trim (s : jsstring) : jsstring := trimEnd (trimStart s).

(** [s.startsWith(p)], with the remainder of [s] after [p]. *)
Fixpoint strip_prefix (p s : jsstring) : option jsstring :=
  match p, s with
  | [], _ => Some s
  | a :: p', b :: s' => if char_eqb a b then strip_prefix p' s' else None
  | _ :: _, [] => None
  end.

(** The loop of [String.prototype.split] for a non-empty string separator:
    [cur] is the segment collected since the last separator (reversed) and
    [skip] the number of code units of a separator still to be passed. *)
Fixpoint split_loop (sep s : jsstring) (skip : nat) (cur : jsstring)
  : list jsstring :=
  match skip with
  | S k =>
      match s with
      | _ :: s' => split_loop sep s' k cur
      | [] => [rev cur]
      end
  | O =>
      match s with
      | [] => [rev cur]
      | c :: s' =>
          match strip_prefix sep s with
          | Some _ => rev cur :: split_loop sep s' (pred (length sep)) []
          | None => split_loop sep s' 0 (c :: cur)
          end
      end
  end.

(** [s.split(sep)] for a string [sep]; an empty separator cuts between
    every two code units. *)
Definition split (sep s : jsstring) : list jsstring :=
  match sep with
  | [] => List.map (fun c => [c]) s
  | _ :: _ => split_loop sep s 0 []
  end.

(** [a.join(sep)]. *)
Fixpoint join (sep : jsstring) (l : list jsstring) : jsstring :=
  match l with
  | [] => []
  | [x] => x
  | x :: l' => x ++ sep ++ join sep l'
  end.

(** [s.includes(t)]. *)
Fixpoint includes (t s : jsstring) : bool :=
  match strip_prefix t s with
  | Some _ => true
  | None => match s with _ :: s' => includes t s' | [] => false end
  end.

(** Decimal digits of a non-negative integer, as [Number::toString] prints
    an integer below 10^21. *)
Definition decimal (n : nat) : jsstring :=
  js (NilZero.string_of_uint (Nat.to_uint n)).

(** A non-empty string is truthy: [s || d]. *)
Definition or_else (s d : jsstring) : jsstring :=
  match s with [] => d | _ :: _ => s end.

End JsString.

Import JsString.

(** ** Regular expressions

    The matcher follows the continuation-passing semantics of the ECMAScript
    specification (section "Pattern Semantics"): a matcher takes a state and
    a continuation, and backtracks by trying the next alternative when the
    continuation fails.  Only the constructs that occur in [src/main.js] are
    present; every quantifier of the source applies to a single character
    class. *)

Module Regex.

Inductive regex :=
| Empty                                   (* the empty pattern *)
| Chr (cls : char -> bool)                (* one code unit of a class *)
| Seq (r1 r2 : regex)
| Alt (r1 r2 : regex)                     (* r1|r2 *)
| Star (greedy : bool) (cls : char -> bool)   (* cls* and cls*? *)
| Group (i : nat) (r : regex)             (* the i-th capturing group *)
| Bol (multiline : bool)                  (* ^ *)
| Eol (multiline : bool).                 (* $ *)

(** The state of a match: the code unit before the current position (none
    at the start of the input), the input from the current position on,
    and the captures made so far (latest first). *)
Record mstate := MState {
  prev : option char;
  rest : jsstring;
  caps : list (nat * jsstring)
}.

Definition cont := mstate -> option mstate.

(** The text between the positions of [x] and a later state [y]. *)
Definition taken (x y : mstate) : jsstring :=
  firstn (length (rest x) - length (rest y)) (rest x).

Fixpoint star (greedy : bool) (cls : char -> bool) (pv : option char)
  (s : jsstring) (cs : list (nat * jsstring)) (c : cont) : option mstate :=
  match s with
  | ch :: tl =>
      if cls ch then
        if greedy then
          match star greedy cls (Some ch) tl cs c with
          | Some y => Some y
          | None => c (MState pv s cs)
          end
        else
          match c (MState pv s cs) with
          | Some y => Some y
          | None => star greedy cls (Some ch) tl cs c
          end
      else c (MState pv s cs)
  | [] => c (MState pv s cs)
  end.

Fixpoint m (r : regex) (x : mstate) (c : cont) : option mstate :=
  match r with
  | Empty => c x
  | Chr cls =>
      match rest x with
      | ch :: tl => if cls ch then c (MState (Some ch) tl (caps x)) else None
      | [] => None
      end
  | Seq r1 r2 => m r1 x (fun y => m r2 y c)
  | Alt r1 r2 =>
      match m r1 x c with
      | Some y => Some y
      | None => m r2 x c
      end
  | Star greedy cls => star greedy cls (prev x) (rest x) (caps x) c
  | Group i r1 =>
      m r1 x (fun y => c (MState (prev y) (rest y) ((i, taken x y) :: caps y)))
  | Bol multiline =>
      match prev x with
      | None => c x
      | Some p => if multiline && isLineTerminator p then c x else None
      end
  | Eol multiline =>
      match rest x with
      | [] => c x
      | ch :: _ => if multiline && isLineTerminator ch then c x else None
      end
  end.

(** Derived forms. *)
Definition chr (a : char) : regex := Chr (char_eqb a).
Definition opt (r : regex) : regex := Alt r Empty.          (* r? *)
Definition plus (cls : char -> bool) : regex := Seq (Chr cls) (Star true cls).
Fixpoint seqs (l : list regex) : regex :=
  match l with
  | [] => Empty
  | [r] => r
  | r :: l' => Seq r (seqs l')
  end.
Definition lit (s : string) : regex := seqs (List.map chr (js s)).
Arguments lit s%_string.

(** Canonicalize of a pattern without the [u] flag, as far as a literal of
    ASCII characters can tell: a code unit equals an ASCII letter up to case
    exactly when it is one of the two ASCII forms of the letter. *)
Definition canonicalize (c : char) : char :=
  if (N.leb 97 c && N.leb c 122)%N then (c - 32)%N else c.
Definition chr_i (a : char) : regex :=
  Chr (fun c => char_eqb (canonicalize c) (canonicalize a)).
Definition lit_i (s : string) : regex := seqs (List.map chr_i (js s)).
Arguments lit_i s%_string.

Definition dot (c : char) : bool := negb (isLineTerminator c).

(** A successful match: the text before it, the matched text, the text
    after it and the captures. *)
Record rmatch := RMatch {
  before : jsstring;
  matched : jsstring;
  after : jsstring;
  captures : list (nat * jsstring)
}.

Fixpoint lookup (i : nat) (cs : list (nat * jsstring)) : option jsstring :=
  match cs with
  | [] => None
  | (j, s) :: cs' => if Nat.eqb i j then Some s else lookup i cs'
  end.

(** [match[i]]; a group that did not take part reads as the empty string,
    which is what every use in the source makes of [undefined]. *)
Definition group (i : nat) (mt : rmatch) : jsstring :=
  match lookup i (captures mt) with Some s => s | None => [] end.

(** One attempt at the current position. *)
Definition attempt (r : regex) (pv : option char) (s : jsstring)
  : option mstate :=
  m r (MState pv s []) (fun y => Some y).

Definition mk_match (pre : jsstring) (s : jsstring) (y : mstate) : rmatch :=
  let n := length s - length (rest y) in
  RMatch (rev pre) (firstn n s) (rest y) (caps y).

(** RegExpBuiltinExec from [lastIndex] onwards: the first position at which
    an attempt succeeds ([pre] is the text passed so far, reversed). *)
Fixpoint search (r : regex) (pv : option char) (pre s : jsstring)
  : option rmatch :=
  match attempt r pv s with
  | Some y => Some (mk_match pre s y)
  | None =>
      match s with
      | ch :: tl => search r (Some ch) (ch :: pre) tl
      | [] => None
      end
  end.

(** [re.exec(s)] on a fresh regular expression ([lastIndex] is 0). *)
Definition exec (r : regex) (s : jsstring) : option rmatch :=
  search r None [] s.

(** The successive matches of a global regular expression, as
    [String.prototype.match] and [matchAll] enumerate them: after a match
    the search resumes at its end, one code unit further when the match is
    empty.  [skip] counts the code units of the last match still to pass. *)
Fixpoint scan (r : regex) (pv : option char) (pre s : jsstring) (skip : nat)
  : list rmatch :=
  match skip with
  | S k =>
      match s with
      | ch :: tl => scan r (Some ch) (ch :: pre) tl k
      | [] => []
      end
  | O =>
      match attempt r pv s with
      | Some y =>
          mk_match pre s y ::
          match s with
          | ch :: tl =>
              scan r (Some ch) (ch :: pre) tl
                   (pred (length s - length (rest y)))
          | [] => []
          end
      | None =>
          match s with
          | ch :: tl => scan r (Some ch) (ch :: pre) tl 0
          | [] => []
          end
      end
  end.

(** [s.matchAll(re)], as the list the iterator yields. *)
Definition matchAll (r : regex) (s : jsstring) : list rmatch :=
  scan r None [] s 0.

(** [s.match(re)] for a global [re]: [null] when there is no match, the
    matched texts otherwise. *)
Definition match_g (r : regex) (s : jsstring) : option (list jsstring) :=
  match matchAll r s with
  | [] => None
  | l => Some (List.map matched l)
  end.

(** [s.replace(re, rep)] for a [re] without the [g] flag and a replacement
    free of [$]. *)
Definition replace (r : regex) (rep s : jsstring) : jsstring :=
  match exec r s with
  | Some mt => before mt ++ rep ++ after mt
  | None => s
  end.

(** [s.replace(re, rep)] for a global [re]. *)
Fixpoint replace_loop (r : regex) (rep : jsstring) (pv : option char)
  (s : jsstring) (skip : nat) : jsstring :=
  match skip with
  | S k =>
      match s with
      | ch :: tl => replace_loop r rep (Some ch) tl k
      | [] => []
      end
  | O =>
      match attempt r pv s with
      | Some y =>
          let n := length s - length (rest y) in
          rep ++
          match s with
          | ch :: tl =>
              match n with
              | O => ch :: replace_loop r rep (Some ch) tl 0
              | S k => replace_loop r rep (Some ch) tl k
              end
          | [] => []
          end
      | None =>
          match s with
          | ch :: tl => ch :: replace_loop r rep (Some ch) tl 0
          | [] => []
          end
      end
  end.

Definition replaceAll (r : regex) (rep s : jsstring) : jsstring :=
  replace_loop r rep None s 0.

(** [s.split(re)] for a [re] without capturing groups: at each position
    after the last cut the pattern is tried in place; a match that would
    end where the current segment starts is passed over. *)
Fixpoint split_re_loop (r : regex) (pv : option char) (s : jsstring)
  (skip : nat) (cur : jsstring) : list jsstring :=
  match skip with
  | S k =>
      match s with
      | ch :: tl => split_re_loop r (Some ch) tl k cur
      | [] => [rev cur]
      end
  | O =>
      match s with
      | [] => [rev cur]
      | ch :: tl =>
          match attempt r pv s with
          | Some y =>
              match length s - length (rest y), cur with
              | O, [] => split_re_loop r (Some ch) tl 0 [ch]
              | O, _ :: _ => rev cur :: split_re_loop r (Some ch) tl 0 [ch]
              | S k, _ => rev cur :: split_re_loop r (Some ch) tl k []
              end
          | None => split_re_loop r (Some ch) tl 0 (ch :: cur)
          end
      end
  end.

Definition split_re (r : regex) (s : jsstring) : list jsstring :=
  match s with
  | [] => match attempt r None [] with Some _ => [] | None => [[]] end
  | _ :: _ => split_re_loop r None s 0 []
  end.

End Regex.

Import Regex.

(** ** JavaScript numbers *)

Module Number.

Local Open Scope float_scope.

(** The number of a string length or of a count of matches. *)
Definition of_nat (n : nat) : float := of_uint63 (Uint63.of_Z (Z.of_nat n)).

(** The integer [n] of [Number.prototype.toFixed] for two fraction digits and
    a finite [x] of magnitude [m * 2^e]: the [n] for which [n / 100 - |x|] is
    as close to zero as possible, the larger one of two such [n]. *)
Definition hundredths (x : float) : Z :=
  match Prim2SF (abs x) with
  | S754_finite _ mant e =>
      if (0 <=? e)%Z then (Zpos mant * 2 ^ e * 100)%Z
      else ((Zpos mant * 200 + 2 ^ (- e)) / 2 ^ (1 - e))%Z
  | _ => 0%Z
  end.

(** The string [x.toFixed(2)], by its shape. *)
Inductive fixed :=
| FixedNaN                         (* "NaN" *)
| FixedInfinity (neg : bool)       (* "Infinity", "-Infinity" *)
| FixedToString (x : float)        (* |x| >= 10^21: the digits of ToString(x) *)
| FixedDecimal (neg : bool) (n : Z).  (* sign, then n with two decimals *)

Definition toFixed2 (x : float) : fixed :=
  if is_nan x then FixedNaN
  else if is_infinity x then FixedInfinity (x <? 0)
  else if 1e21 <=? abs x then FixedToString x
  else FixedDecimal (x <? 0) (hundredths x).

(** Unary plus on such a string: the binary64 value nearest to the number it
    denotes.  Below 2^53 the integer [n] is a binary64 value and the IEEE
    quotient [n / 100] is that nearest value.  From 2^53 on, [x] is at least
    2^46, where neighbouring binary64 values are more than 0.01 apart, and
    the nearest value to [n / 100] is [x] again; [FixedDecimal] keeps only
    [n], so [toNumber] takes [x] as a second argument for that case. *)
Definition toNumber (x : float) (str : fixed) : float :=
  match str with
  | FixedNaN => nan
  | FixedInfinity neg => if neg then neg_infinity else infinity
  | FixedToString y => y
  | FixedDecimal neg n =>
      let q := if (n <? 2 ^ 53)%Z then of_uint63 (Uint63.of_Z n) / 100
               else abs x in
      if neg then - q else q
  end.

(** [+x.toFixed(2)]. *)
Definition round2 (x : float) : float := toNumber x (toFixed2 x).

End Number.

(** ** The grading report *)

Module Report.

(** A string built by concatenation in which the numbers are kept as
    numbers: [Num x] stands for the digits [Number::toString] prints for
    [x]. *)
Inductive frag :=
| Str (s : jsstring)
| Num (x : float).

Definition text := list frag.

(** [btoa(markdown)]: the base64 form of a text, kept as the text inside. *)
Inductive base64 := Btoa (t : text).

Record test_entry := TestEntry {
  name : jsstring;
  test_status : jsstring;
  message : jsstring;
  test_code : jsstring;
  filename : jsstring;
  line_no : Z;
  execution_time : Z;
  score : option float          (* [None]: the property is absent *)
}.

Record result := Result {
  version : Z;
  status : jsstring;
  max_score : float;
  markdown : base64;
  tests : list test_entry
}.

(** [btoa(JSON.stringify(result))]: the payload handed to
    [core.setOutput('result', _)], kept as the object it encodes. *)
Inductive payload := Payload (r : result).

Definition decoded (p : payload) : result := match p with Payload r => r end.
Definition markdown_text (r : result) : text :=
  match markdown r with Btoa t => t end.

(** A row pushed to the console table of [cli-table3]. *)
Inductive table_row :=
| Cells (msg expected actual : jsstring)
| Spanned (content : jsstring).            (* one cell, colSpan 3 *)

End Report.

Import Report.

(** ** Exceptions and the sink *)

Module Effects.

(** The exceptions of the script: the error of [execSync], with the output
    captured from the child process when there is one; the [TypeError] of a
    property read on [null]; the [RangeError] with which [spawnSync]
    refuses its options (a timeout that is not a non-negative integer); and
    the [Error] of [core.getInput] for a required input that is not
    supplied. *)
Inductive exn :=
| ChildProcessError (stdout stderr : option jsstring)
| TypeError
| RangeError
| InputError (name : jsstring).

(** [error.stdout] and [error.stderr]: [undefined] on an exception that
    has no such property. *)
Definition exn_stdout (e : exn) : option jsstring :=
  match e with ChildProcessError o _ => o | _ => None end.
Definition exn_stderr (e : exn) : option jsstring :=
  match e with ChildProcessError _ o => o | _ => None end.

Inductive completion (A : Type) :=
| Normal (a : A)
| Throw (e : exn).
Arguments Throw {A} e.

(** The payloads given to [core.setOutput], oldest first. *)
Definition sink := list payload.

Definition action (A : Type) := sink -> completion A * sink.

Definition ret {A} (a : A) : action A := fun k => (Normal a, k).
Definition throw {A} (e : exn) : action A := fun k => (Throw e, k).
Definition bind {A B} (a : action A) (f : A -> action B) : action B :=
  fun k => match a k with
           | (Normal x, k') => f x k'
           | (Throw e, k') => (Throw e, k')
           end.
Definition try_catch {A} (body : action A) (handler : exn -> action A)
  : action A :=
  fun k => match body k with
           | (Normal x, k') => (Normal x, k')
           | (Throw e, k') => handler e k'
           end.

(** [core.setOutput('result', btoa(JSON.stringify(r)))]. *)
Definition setOutput (r : result) : action unit :=
  fun k => (Normal tt, k ++ [Payload r]).

(** Reading a property of the result of [exec] or [match]: a [TypeError]
    when that result is [null]. *)
Definition non_null {A} (o : option A) : action A :=
  match o with Some a => ret a | None => throw TypeError end.

End Effects.

Import Effects.

Declare Scope action_scope.
Delimit Scope action_scope with action.
Notation "x <- a ;; b" := (bind a (fun x => b))
  (at level 61, a at next level, right associativity) : action_scope.
Notation "a ;;; b" := (bind a (fun _ => b))
  (at level 61, right associativity) : action_scope.

(** ** [src/main.js] *)

Module Main.

Local Open Scope action_scope.

(** *** Configuration: [getInputs] *)

(** The values of the inputs of the action as the runner hands them over
    (the environment variables [INPUT_TEST-NAME] and so on), the empty
    string for an input that is not set. *)
Record config := Config {
  cfg_test_name : jsstring;
  cfg_test_class : jsstring;
  cfg_setup_command : jsstring;
  cfg_timeout : jsstring;
  cfg_max_score : jsstring;
  cfg_lib_path : jsstring;
  cfg_partial_credit : jsstring
}.

Record inputs := Inputs {
  testName : jsstring;
  testClasses : list jsstring;
  setupCommand : jsstring;
  timeout : float;
  maxScore : float;
  libFolder : jsstring;
  partialCredit : bool;
  buildCommand : jsstring;
  runCommand : jsstring
}.

(** The argument of [split] at line 15 is the string literal
    ['\s*,\s*  '], not a regular expression; in a string literal [\s] is the
    letter [s]. *)
Definition test_class_separator : jsstring := js "s*,s*  ".

(** [core.getInput('test-class', ...).split('\s*,\s*  ')]. *)
Definition split_test_class (v : jsstring) : list jsstring :=
  split test_class_separator v.

(** [core.getInput(name, options)] of [@actions/core], on the value [raw]
    of the input: an [Error] when the input is required and its value is
    empty; otherwise the value with leading and trailing white space
    removed. *)
Definition getInput (raw : jsstring) (name : string) (required : bool)
  : action jsstring :=
  match raw, required with
  | [], true => throw (InputError (js name))
  | _, _ => ret (trim raw)
  end.
Arguments getInput raw name%_string required.

Section GetInputs.

(** [parseFloat] on a string is left to the host. *)
Variable parseFloat : jsstring -> float.

Definition getInputs (cfg : config) : action inputs :=
  testName <- getInput (cfg_test_name cfg) "test-name" true ;;
  testClass <- getInput (cfg_test_class cfg) "test-class" true ;;
  let testClasses := split_test_class testClass in
  setupCommand <- getInput (cfg_setup_command cfg) "setup-command" false ;;
  timeoutValue <- getInput (cfg_timeout cfg) "timeout" false ;;
  let timeout :=
    ((match timeoutValue with [] => 5 | v => parseFloat v end) * 60000)%float in
  maxScoreValue <- getInput (cfg_max_score cfg) "max-score" false ;;
  let maxScore :=
    match maxScoreValue with [] => 0%float | v => parseFloat v end in
  libPath <- getInput (cfg_lib_path cfg) "lib-path" false ;;
  let libFolder := or_else libPath (js "lib") in
  partialCreditValue <-
    getInput (cfg_partial_credit cfg) "partial-credit" false ;;
  let partialCredit := jsstring_eqb partialCreditValue (js "true") in
  let buildCommand :=
    js "javac -cp " ++ [DQUOTE] ++ libFolder ++ js "/*" ++ [DQUOTE]
       ++ js " -d . *.java" in
  let runCommand :=
    js "java -cp " ++ [DQUOTE] ++ libFolder ++ js "/*:." ++ [DQUOTE]
       ++ js " org.junit.runner.JUnitCore " ++ join (js " ") testClasses in
  ret (Inputs testName testClasses setupCommand timeout maxScore libFolder
         partialCredit buildCommand runCommand).

End GetInputs.

Definition display_name (i : inputs) : jsstring :=
  or_else (testName i) (js "Unknown Test").

Definition fence : jsstring := js "```".

(** *** [setup] *)

(** The object [spawnSync] returns: [rs.error.message] when the command
    could not be run, and the captured output when there is any. *)
Record spawn_result := SpawnResult {
  sp_error : option jsstring;
  sp_stdout : option jsstring;
  sp_stderr : option jsstring
}.

(** What [spawnSync] does: it returns that object, or it throws (a
    [RangeError] when it refuses its options, before any process is
    started). *)
Inductive spawn_outcome :=
| SpawnReturned (rs : spawn_result)
| SpawnThrew (e : exn).

Definition spawnSync (o : spawn_outcome) : action spawn_result :=
  match o with
  | SpawnReturned rs => ret rs
  | SpawnThrew e => throw e
  end.

Definition setup_markdown (i : inputs) (msg : jsstring) (rs : spawn_result)
  : text :=
  [Str (js ":x: Error running setup command" ++ [LF; LF]
        ++ js "This is probably something that your teacher needs to fix"
        ++ [LF; LF] ++ fence ++ js "shell" ++ [LF] ++ setupCommand i ++ [LF]
        ++ fence ++ [LF; LF] ++ js "Error: " ++ msg)]
  ++ match sp_stdout rs with
     | Some out =>
         [Str ([LF; LF] ++ js "stdout:" ++ [LF; LF] ++ fence ++ [LF] ++ out
               ++ [LF] ++ fence ++ [LF; LF])]
     | None => []
     end
  ++ match sp_stderr rs with
     | Some err =>
         [Str ([LF; LF] ++ js "stderr:" ++ [LF; LF] ++ fence ++ [LF] ++ err
               ++ [LF] ++ fence ++ [LF; LF])]
     | None => []
     end.

(** The call of [spawnSync] at line 36 is in no [try] block: its exception
    leaves [setup]. *)
Definition setup (i : inputs) (o : spawn_outcome) : action bool :=
  match setupCommand i with
  | [] => ret true
  | _ :: _ =>
      rs <- spawnSync o ;;
      match sp_error rs with
      | Some msg =>
          let markdown := setup_markdown i msg rs in
          let result :=
            Result 1 (js "error") (maxScore i) (Btoa markdown)
              [TestEntry (display_name i) (js "error")
                 (js "Error running setup command, see " ++ display_name i
                  ++ js " above for more details")
                 (or_else (setupCommand i) (js "Unknown Command"))
                 [] 0 0 None] in
          setOutput result ;;; ret false
      | None => ret true
      end
  end.

(** *** [build] *)

(** What [execSync] does: it returns the standard output of a command that
    exits with status 0 and throws an error otherwise.  The error is kept
    as what the [catch] blocks read of it, its properties [stdout] and
    [stderr]; both are absent on an exception thrown before the command is
    started, such as the [RangeError] for the options. *)
Inductive exec_outcome :=
| Exited0 (stdout : jsstring)
| ExecThrew (stdout stderr : option jsstring).

Definition execSync (o : exec_outcome) : action jsstring :=
  match o with
  | Exited0 out => ret out
  | ExecThrew out err => throw (ChildProcessError out err)
  end.

(** [b && b.length > 0 ? <fenced b.toString().trim()> : nothing]. *)
Definition fenced_if_present (b : option jsstring) : text :=
  match b with
  | Some ((_ :: _) as out) =>
      [Str (fence ++ [LF] ++ trim out ++ [LF] ++ fence ++ [LF; LF])]
  | _ => []
  end.

Definition build (i : inputs) (o : exec_outcome) : action bool :=
  try_catch
    (_ <- execSync o ;; ret true)
    (fun error =>
       let markdown :=
         [Str (js ":x: Error building Java code" ++ [LF; LF])]
         ++ fenced_if_present (exn_stdout error)
         ++ fenced_if_present (exn_stderr error) in
       let result :=
         Result 1 (js "error") (maxScore i) (Btoa markdown)
           [TestEntry (display_name i) (js "error")
              (js "Error building submitted code, see " ++ display_name i
               ++ js " above for more details")
              (or_else (buildCommand i) (js "Unknown Command"))
              [] 0 0 None] in
       setOutput result ;;; ret false).

(** *** [run]: the patterns *)

(** The regular expression of lines 170 and 223 (flag g): the literal
    version, [\s*], digits, a dot, digits, group 1 (a dot and digits), an
    optional CR and a LF, group 2 (a lazy star of the dot class), group 3
    (an optional CR and a LF, or the end of the input). *)
Definition version_re : regex :=
  seqs [lit "version"; Star true isWhiteSpace; plus isDigit; lit ".";
        plus isDigit; Group 1 (Seq (lit ".") (plus isDigit));
        opt (chr CR); chr LF;
        Group 2 (Star false dot);
        Group 3 (Alt (Seq (opt (chr CR)) (chr LF)) (Eol false))].

(** The regular expression of line 228 (flag g): a period. *)
Definition period_re : regex := lit ".".

(** The regular expression of line 229 (flags g and i): the letter E. *)
Definition error_re : regex := lit_i "E".

(** The regular expression of line 259 (flag m): the start of a line,
    digits, a closing parenthesis, a greedy star of the dot class, the end
    of a line. *)
Definition header_re : regex :=
  seqs [Bol true; plus isDigit; lit ")"; Star true dot; Eol true].

(** The pattern of an expected and an actual value, lines 264 and 266:
    the word expected, a colon, the first value between angle brackets, the
    words but was, a colon, the second value between angle brackets; [\s*]
    before and after each colon and before but was, and each value is the
    group of a greedy star of the dot class.  [i] and [j] number the two
    groups. *)
Definition expected_but_was (i j : nat) : regex :=
  seqs [lit "expected"; Star true isWhiteSpace; lit ":";
        Star true isWhiteSpace; lit "<"; Group i (Star true dot); lit ">";
        Star true isWhiteSpace; lit "but was"; Star true isWhiteSpace;
        lit ":"; Star true isWhiteSpace; lit "<"; Group j (Star true dot);
        lit ">"].

(** The regular expression of line 264 (flag g). *)
Definition comparison_re : regex := expected_but_was 1 2.

(** The regular expression of line 266 (flag g): group 1 is the exception
    kind, AssertionError or ComparisonFailure, followed by a colon; group 2
    is a greedy star of the dot class; groups 3 and 4 are the two values. *)
Definition assertion_re : regex :=
  seqs [Group 1 (Alt (lit "AssertionError") (lit "ComparisonFailure"));
        lit ":"; Group 2 (Star true dot); expected_but_was 3 4].

(** The regular expression of line 271 (flag g): CR LF, or CR, or LF. *)
Definition linebreak_re : regex :=
  Alt (Seq (chr CR) (chr LF)) (Alt (chr CR) (chr LF)).

(** [reReplace], lines 286 to 289, both with flag i: the literal
    java.lang. followed by the group of a greedy star of the dot class and a
    colon, and the literal org.junit.runners.model.TestTimedOutException
    followed by a colon. *)
Definition java_lang_re : regex :=
  seqs [lit_i "java.lang."; Group 1 (Star true dot); lit_i ":"].

Definition timed_out_re : regex :=
  lit_i "org.junit.runners.model.TestTimedOutException:".

Definition reReplace : list regex := [java_lang_re; timed_out_re].

(** *** [run]: the loop over the failure blocks *)

Definition br (s : jsstring) : jsstring := replaceAll linebreak_re (js "<br>") s.

(** The row of one match of [assertion_re]: [match[2]] is first replaced by
    its trimmed text. *)
Definition structured_message (mt : rmatch) : jsstring :=
  or_else (or_else (trim (group 2 mt)) []) (js "Test failed").

Definition structured_row (mt : rmatch) : table_row :=
  Cells (structured_message mt) (group 3 mt) (group 4 mt).

Definition structured_html (mt : rmatch) : jsstring :=
  js "<tr><td>" ++ structured_message mt ++ js "</td><td>"
     ++ br (trim (group 3 mt)) ++ js "</td><td>" ++ br (trim (group 4 mt))
     ++ js "</td></tr>".

Definition spanned_html (content : jsstring) : jsstring :=
  js "<tr><td colspan=" ++ [DQUOTE] ++ js "3" ++ [DQUOTE] ++ js ">"
     ++ content ++ js "</td></tr>".

(** [failure.trim().split('\n')[0].trim()], then each pattern of
    [reReplace] removed once and the text trimmed again. *)
Definition first_line (failure : jsstring) : jsstring :=
  trim (hd [] (split [LF] (trim failure))).

Definition other_message (failure : jsstring) : jsstring :=
  fold_left (fun msg re => trim (replace re [] msg)) reReplace
            (first_line failure).

(** The value [matchAll] returns is an iterator object, and an object is
    truthy whatever it yields. *)
Definition iterator_truthy (matches : list rmatch) : bool := true.

(** The body of [for (let failure of failures)]: the rows it pushes to the
    console table and the text it appends to [htmlTable]. *)
Definition classify (failure : jsstring) : list table_row * jsstring :=
  match match_g comparison_re failure with
  | Some _ =>
      let matches := matchAll assertion_re failure in
      if iterator_truthy matches then
        (List.map structured_row matches,
         concat (List.map structured_html matches))
      else ([Spanned failure], spanned_html failure)
  | None =>
      let msg := other_message failure in
      ([Spanned msg], spanned_html msg)
  end.

Definition table_head : jsstring :=
  js "<table><thead><tr><th>Message</th><th>Expected</th><th>Actual</th></tr></thead><tbody>".

(** [stdOut.split(header_re)] followed by [failures.shift()]. *)
Definition failure_blocks (stdOut : jsstring) : list jsstring :=
  tl (split_re header_re stdOut).

Definition classify_all (failures : list jsstring)
  : list table_row * jsstring :=
  fold_left
    (fun acc failure =>
       let (rows, html) := classify failure in
       (fst acc ++ rows, snd acc ++ html))
    failures ([], table_head).

(** *** [run] *)

(** [(testCount - errorCount) / testCount * inputs.maxScore] *)
Definition raw_score (testCount errorCount : nat) (maxScore : float) : float :=
  ((Number.of_nat testCount - Number.of_nat errorCount)
   / Number.of_nat testCount * maxScore)%float.

(** The value stored in [result.tests[0].score], lines 231 to 238. *)
Definition awarded (i : inputs) (testCount errorCount : nat) : float :=
  if partialCredit i
  then Number.round2 (raw_score testCount errorCount (maxScore i))
  else 0%float.

Definition plural (n : nat) : jsstring :=
  if Nat.ltb 1 n then js "s" else [].

(** [re.exec(_)] on the output and [match[2] || '']: the marker line. *)
Definition marker_line (stdOut : jsstring) : action jsstring :=
  mt <- non_null (exec version_re stdOut) ;;
  ret (or_else (group 2 mt) []).

(** Lines 228 and 229: [testCount] and [errorCount]. *)
Definition count_tests (dots : jsstring) : action (nat * nat) :=
  periods <- non_null (match_g period_re dots) ;;
  let testCount := length periods in
  letters <- non_null (match_g error_re dots) ;;
  let errorCount := length letters in
  ret (testCount, errorCount).

Definition passed_result (i : inputs) (dots : jsstring) : result :=
  let markdown :=
    [Str ([9989%N; 32%N] ++ decimal (length dots) ++ js " test"
          ++ plural (length dots) ++ js " passed")] in
  Result 1 (js "pass") (maxScore i) (Btoa markdown)
    [TestEntry (display_name i) (js "pass") (js "Tests passed")
       (or_else (runCommand i) (js "Unknown Command"))
       [] 0 0 (Some (maxScore i))].

(** The [try] block after [execSync] returned. *)
Definition run_passed (i : inputs) (rs : jsstring) : action unit :=
  dots <- marker_line rs ;;
  setOutput (passed_result i dots).

Definition summary_line (i : inputs) (testCount errorCount : nat)
  (score : float) : text :=
  if Nat.eqb testCount errorCount then
    [Str (js ":x: All " ++ decimal testCount ++ js " tests failed (0 of ");
     Num (maxScore i); Str (js " points)" ++ [LF; LF])]
  else
    [Str (js ":x: " ++ decimal errorCount ++ js " of " ++ decimal testCount
          ++ js " tests failed (");
     Num score; Str (js " of "); Num (maxScore i);
     Str (js " points)" ++ [LF; LF])].

Definition error_output (error : exn) : text :=
  match exn_stderr error with
  | Some ((_ :: _) as err) =>
      [Str ([LF; LF] ++ js "Error Output:" ++ [LF; LF] ++ fence ++ [LF]
            ++ trim err ++ [LF] ++ fence ++ [LF; LF])]
  | _ => []
  end.

(** [error.stdout ? error.stdout.toString().trim() : ''] *)
Definition captured_stdout (error : exn) : jsstring :=
  match exn_stdout error with Some out => trim out | None => [] end.

Definition failed_result (i : inputs) (error : exn) (stdOut : jsstring)
  (testCount errorCount : nat) : result :=
  let score := awarded i testCount errorCount in
  let htmlTable :=
    snd (classify_all (failure_blocks stdOut)) ++ js "</tbody></table>" in
  let markdown :=
    summary_line i testCount errorCount score ++ [Str htmlTable]
    ++ error_output error in
  Result 1 (js "error") (maxScore i) (Btoa markdown)
    [TestEntry (display_name i) (js "error")
       (js "Error running tests, see " ++ display_name i
        ++ js " above for more details")
       (or_else (runCommand i) (js "Unknown Command"))
       [] 0 0 (Some score)].

(** The [catch] block.  The object [result] is created without a [score]
    property at line 203; the property is assigned at line 234 or 237,
    before the only use of the object. *)
Definition run_failed (i : inputs) (error : exn) : action bool :=
  let stdOut := captured_stdout error in
  dots <- marker_line stdOut ;;
  counts <- count_tests dots ;;
  setOutput (failed_result i error stdOut (fst counts) (snd counts)) ;;;
  ret false.

(** [run] returns [undefined] ([None]) from the [try] block and [false]
    from the [catch] block.  An exception of the [try] block, that of
    [execSync] or the [TypeError] of [match[2]], enters the [catch] block;
    one thrown in the [catch] block leaves [run]. *)
Definition run (i : inputs) (o : exec_outcome) : action (option bool) :=
  try_catch
    (rs <- execSync o ;; run_passed i rs ;;; ret None)
    (fun error => b <- run_failed i error ;; ret (Some b)).

(** *** The script: lines 331 to 337 *)

(** Lines 333 to 337, for the inputs read at line 331. *)
Definition main (i : inputs) (setup_o : spawn_outcome)
  (build_o run_o : exec_outcome) : action unit :=
  ok <- setup i setup_o ;;
  if ok : bool then
    built <- build i build_o ;;
    if built : bool then _ <- run i run_o ;; ret tt else ret tt
  else ret tt.

(** The whole script: the call of [getInputs] at line 331 is in no [try]
    block either. *)
Definition script (parseFloat : jsstring -> float) (cfg : config)
  (setup_o : spawn_outcome) (build_o run_o : exec_outcome) : action unit :=
  i <- getInputs parseFloat cfg ;;
  main i setup_o build_o run_o.

End Main.

Import Main.


(** * Declarative reading of the patterns and of the claims *)

Module Reading.

(** A position of the input: the code unit before it and the text from it
    on. *)
Definition pos := (option char * jsstring)%type.

Definition pos_of (x : mstate) : pos := (prev x, rest x).

(** [pstar cls p q]: [q] is reached from [p] over code units of [cls]. *)
Inductive pstar (cls : char -> bool) : pos -> pos -> Prop :=
| pstar_nil p : pstar cls p p
| pstar_cons pv ch tl q :
    cls ch = true -> pstar cls (Some ch, tl) q -> pstar cls (pv, ch :: tl) q.

(** [psteps r p q]: the pattern [r] can match the text between the
    positions [p] and [q], whatever the order in which the matcher tries
    the alternatives. *)
Fixpoint psteps (r : regex) (p q : pos) : Prop :=
  match r with
  | Empty => q = p
  | Chr cls =>
      exists ch, snd p = ch :: snd q /\ cls ch = true /\ fst q = Some ch
  | Seq r1 r2 => exists mid, psteps r1 p mid /\ psteps r2 mid q
  | Alt r1 r2 => psteps r1 p q \/ psteps r2 p q
  | Star _ cls => pstar cls p q
  | Group _ r1 => psteps r1 p q
  | Bol multiline =>
      q = p /\
      match fst p with
      | None => True
      | Some c => multiline && isLineTerminator c = true
      end
  | Eol multiline =>
      q = p /\
      match snd p with
      | [] => True
      | c :: _ => multiline && isLineTerminator c = true
      end
  end.

(** [groups_ok Q r]: the text of every capturing group [i] of [r]
    satisfies [Q i]. *)
Fixpoint groups_ok (Q : nat -> jsstring -> Prop) (r : regex) : Prop :=
  match r with
  | Seq a b | Alt a b => groups_ok Q a /\ groups_ok Q b
  | Group i r1 =>
      groups_ok Q r1
      /\ forall p q t, psteps r1 p q -> snd p = t ++ snd q -> Q i t
  | _ => True
  end.

Definition caps_ok (Q : nat -> jsstring -> Prop) (cs : list (nat * jsstring))
  : Prop :=
  Forall (fun e => Q (fst e) (snd e)) cs.

(** No line terminator: the code units the dot class accepts. *)
Definition one_line (s : jsstring) : Prop := Forall (fun c => dot c = true) s.

(** What the groups of the pattern of line 266 hold: groups 2, 3 and 4
    are runs of the dot class. *)
Definition values_one_line (i : nat) (t : jsstring) : Prop :=
  i = 1 \/ one_line t.

(** The message cell of a structured row, in the words of the
    specification: the trimmed text between the exception kind and the word
    expected, or the literal Test failed when that text is empty. *)
Definition message_or_default (between : jsstring) : jsstring :=
  match trim between with
  | [] => js "Test failed"
  | t => t
  end.

(** The first non-blank line of a block, in the words of the
    specification: the first of its lines, cut at LF, that does not consist
    of white space only, and the empty string when there is none. *)
Definition blank (l : jsstring) : bool := forallb isWhiteSpace l.

Definition first_nonblank_line (block : jsstring) : jsstring :=
  match find (fun l => negb (blank l)) (split [LF] block) with
  | Some l => l
  | None => []
  end.

(** The text of a string up to its first LF. *)
Fixpoint until_lf (s : jsstring) : jsstring :=
  match s with
  | [] => []
  | c :: s' => if char_eqb LF c then [] else c :: until_lf s'
  end.

(** The code unit before the position reached after the text [t]. *)
Fixpoint last_of (pv : option char) (t : jsstring) : option char :=
  match t with
  | [] => pv
  | c :: t' => last_of (Some c) t'
  end.

(** [commits r x y]: from [x] the first path the matcher tries through [r]
    ends at [y], so that the match succeeds as soon as the continuation
    accepts [y]. *)
Definition commits (r : regex) (x y : mstate) : Prop :=
  forall (c : cont) z, c y = Some z -> m r x c = Some z.

(** A non-empty run of decimal digits. *)
Definition digits (t : jsstring) : Prop :=
  t <> [] /\ Forall (fun c => isDigit c = true) t.

(** What may follow the marker line: the end of the output, LF or CR LF. *)
Inductive line_end : jsstring -> Prop :=
| line_end_eof : line_end []
| line_end_lf rest : line_end (LF :: rest)
| line_end_crlf rest : line_end (CR :: LF :: rest).

(** The output JUnit 4 prints: the version line, a banner (JUnit and a
    blank) before the word version, then the marker line. *)
Definition junit_output (banner major minor patch dots tail : jsstring)
  : jsstring :=
  banner ++ js "version " ++ major ++ js "." ++ minor ++ js "." ++ patch
         ++ [LF] ++ dots ++ tail.

(** No letter v: the version pattern cannot start inside such a text. *)
Definition no_v (t : jsstring) : Prop :=
  Forall (fun a => char_eqb 118%N a = false) t.

(** The positions of an input from a given one on. *)
Fixpoint positions (pv : option char) (s : jsstring) : list pos :=
  (pv, s) ::
  match s with
  | ch :: tl => positions (Some ch) tl
  | [] => []
  end.

(** The number of code units of a class. *)
Definition count (cls : char -> bool) (s : jsstring) : nat :=
  length (filter cls s).

(** The glyphs of a marker line: a period when a test starts, the letter E
    (in either case, for the flag i of line 229) for a failure. *)
Definition is_period (c : char) : bool := N.eqb c 46.
Definition is_failure_glyph (c : char) : bool := N.eqb c 69 || N.eqb c 101.


(** The marker line [run] reads from the outcome of the test command: from
    the output as it is after status 0, from the trimmed output of the
    error otherwise. *)
Definition marker_of (o : exec_outcome) : option jsstring :=
  match o with
  | Exited0 out => option_map (group 2) (exec version_re out)
  | ExecThrew out err =>
      option_map (group 2)
        (exec version_re (captured_stdout (ChildProcessError out err)))
  end.


(** The score of the only test entry of a report. *)
Definition reported_score (r : result) : option float :=
  match tests r with
  | [t] => score t
  | _ => None
  end.

(** The third group of the version pattern: a line break or the end. *)
Definition version_end : regex :=
  Group 3 (Alt (Seq (opt (chr CR)) (chr LF)) (Eol false)).

(** The text [s] does not start with a code unit of [cls]. *)
Definition not_in (cls : char -> bool) (s : jsstring) : Prop :=
  match s with
  | [] => True
  | a :: _ => cls a = false
  end.

(** The lines of [s] cut at LF, the first one after the text [cur]
    (reversed): the loop of [split] for the separator LF. *)
Definition lines (cur s : jsstring) : list jsstring :=
  split_loop [LF] s 0 cur.

Definition well_versioned (p : payload) : Prop :=
  version (decoded p) = 1%Z /\ length (tests (decoded p)) = 1.

(** *** The paths of the script *)

(** [setup] reports a failure: there is a setup command and [spawnSync]
    returned an error. *)
Definition setup_failed (i : inputs) (o : spawn_outcome) : bool :=
  match setupCommand i, o with
  | _ :: _, SpawnReturned rs =>
      match sp_error rs with Some _ => true | None => false end
  | _, _ => false
  end.

(** [spawnSync] is called and throws. *)
Definition spawn_threw (i : inputs) (o : spawn_outcome) : bool :=
  match setupCommand i, o with
  | _ :: _, SpawnThrew _ => true
  | _, _ => false
  end.

(** [getInputs] returns: the two required inputs are supplied. *)
Definition inputs_supplied (cfg : config) : bool :=
  match cfg_test_name cfg, cfg_test_class cfg with
  | _ :: _, _ :: _ => true
  | _, _ => false
  end.

(** The object [getInputs] returns when it returns, from the trimmed values
    of the inputs. *)
Definition inputs_read (parseFloat : jsstring -> float) (cfg : config)
  : inputs :=
  let libFolder := or_else (trim (cfg_lib_path cfg)) (js "lib") in
  let testClasses := split_test_class (trim (cfg_test_class cfg)) in
  Inputs (trim (cfg_test_name cfg)) testClasses
    (trim (cfg_setup_command cfg))
    ((match trim (cfg_timeout cfg) with [] => 5 | v => parseFloat v end)
     * 60000)%float
    (match trim (cfg_max_score cfg) with [] => 0%float | v => parseFloat v end)
    libFolder
    (jsstring_eqb (trim (cfg_partial_credit cfg)) (js "true"))
    (js "javac -cp " ++ [DQUOTE] ++ libFolder ++ js "/*" ++ [DQUOTE]
        ++ js " -d . *.java")
    (js "java -cp " ++ [DQUOTE] ++ libFolder ++ js "/*:." ++ [DQUOTE]
        ++ js " org.junit.runner.JUnitCore " ++ join (js " ") testClasses).

(** [execSync] threw. *)
Definition exec_failed (o : exec_outcome) : bool :=
  match o with
  | Exited0 _ => false
  | ExecThrew _ _ => true
  end.

(** The output of the test command is one [run] can report on: the version
    pattern finds a marker line and, after a failure of the command, that
    line holds a period and a failure glyph. *)
Definition run_reports (o : exec_outcome) : bool :=
  match marker_of o with
  | None => false
  | Some dots =>
      match o with
      | Exited0 _ => true
      | ExecThrew _ _ =>
          Nat.leb 1 (count is_period dots)
          && Nat.leb 1 (count is_failure_glyph dots)
      end
  end.

(** The object of lines 68 to 82, for the message of the error. *)
Definition setup_result (i : inputs) (msg : jsstring) (rs : spawn_result)
  : result :=
  Result 1 (js "error") (maxScore i) (Btoa (setup_markdown i msg rs))
    [TestEntry (display_name i) (js "error")
       (js "Error running setup command, see " ++ display_name i
        ++ js " above for more details")
       (or_else (setupCommand i) (js "Unknown Command"))
       [] 0 0 None].

(** The object of lines 134 to 148, for the output captured from the
    compiler. *)
Definition build_result (i : inputs) (out err : option jsstring) : result :=
  Result 1 (js "error") (maxScore i)
    (Btoa ([Str (js ":x: Error building Java code" ++ [LF; LF])]
           ++ fenced_if_present out ++ fenced_if_present err))
    [TestEntry (display_name i) (js "error")
       (js "Error building submitted code, see " ++ display_name i
        ++ js " above for more details")
       (or_else (buildCommand i) (js "Unknown Command"))
       [] 0 0 None].

(** The section of the markdown for the standard error output, lines 310
    to 316. *)
Definition stderr_section (err : jsstring) : frag :=
  Str ([LF; LF] ++ js "Error Output:" ++ [LF; LF] ++ fence ++ [LF]
       ++ trim err ++ [LF] ++ fence ++ [LF; LF]).

(** A version line with two components only, as JUnit 4.12 and 4.13 print
    it, followed by the rest of the output. *)
Definition short_version_output (banner major minor rest : jsstring)
  : jsstring :=
  banner ++ js "version " ++ major ++ js "." ++ minor ++ [LF] ++ rest.

(** *** The failure blocks of an output *)

(** The start of a line, as the caret reads it under the flag m: the start
    of the input, or the position after a line terminator. *)
Definition at_bol (pv : option char) : bool :=
  match pv with
  | None => true
  | Some p => isLineTerminator p
  end.

(** No line of [s] starts with a digit, [s] being read after the code unit
    [pv]. *)
Fixpoint plain_lines (pv : option char) (s : jsstring) : bool :=
  match s with
  | [] => true
  | c :: tl => negb (at_bol pv && isDigit c) && plain_lines (Some c) tl
  end.

(** A failure as JUnit prints it: a header line made of a number, a closing
    parenthesis and the name of the test, then the text up to the next
    header. *)
Record failure_text := FailureText {
  ft_number : jsstring;
  ft_title : jsstring;
  ft_body : jsstring
}.

Definition header_text (b : failure_text) : jsstring :=
  ft_number b ++ js ")" ++ ft_title b.

Definition failures_text (bs : list failure_text) : jsstring :=
  concat (List.map (fun b => header_text b ++ ft_body b) bs).

(** The failures [bs] are laid out line by line after the code unit [pv]:
    every header starts a line and is a line of its own, and no line of a
    body starts with a digit. *)
Fixpoint failures_ok (pv : option char) (bs : list failure_text) : Prop :=
  match bs with
  | [] => True
  | b :: bs' =>
      at_bol pv = true /\ digits (ft_number b) /\ one_line (ft_title b)
      /\ not_in dot (ft_body b) /\ plain_lines None (ft_body b) = true
      /\ failures_ok (last_of pv (header_text b ++ ft_body b)) bs'
  end.

End Reading.

Import Reading.

(** * Sample runs *)

Module Samples.

Definition junit_version_line : jsstring := js "JUnit version 4.13.2" ++ [LF].

(** The output of a run of five tests of which two failed. *)
Definition two_of_five_failed : jsstring :=
  junit_version_line ++ js "..E.E" ++ [LF] ++ js "Time: 0.01" ++ [LF]
  ++ js "There were 2 failures:" ++ [LF]
  ++ js "1) testA(FooTest)" ++ [LF]
  ++ js "java.lang.AssertionError: msg expected:<A> but was:<B>" ++ [LF]
  ++ js "   at FooTest.testA(FooTest.java:9)" ++ [LF]
  ++ js "2) testB(FooTest)" ++ [LF]
  ++ js "org.junit.ComparisonFailure: expected:<[a]> but was:<[b]>" ++ [LF]
  ++ js "   at FooTest.testB(FooTest.java:14)" ++ [LF]
  ++ [LF] ++ js "FAILURES!!!" ++ [LF]
  ++ js "Tests run: 3,  Failures: 2" ++ [LF].

Definition sample_inputs (partial : bool) (mx : float) : inputs :=
  Inputs (js "FooTest") [js "FooTest"] [] 300000%float mx (js "lib") partial
    (js "javac -cp lib/* -d . *.java")
    (js "java -cp lib/*:. org.junit.runner.JUnitCore FooTest").

(** The output of a run without any test. *)
Definition no_tests_run : jsstring :=
  junit_version_line ++ [LF] ++ js "Time: 0.001" ++ [LF] ++ [LF]
  ++ js "OK (0 tests)" ++ [LF] ++ [LF].

(** The output of a run of one test that reports two failures, as JUnit 4
    prints it when the test method and its [@After] method both throw. *)
Definition one_test_two_failures : jsstring :=
  junit_version_line ++ js ".EE" ++ [LF] ++ js "Time: 0.004" ++ [LF]
  ++ js "There were 2 failures:" ++ [LF]
  ++ js "1) testA(FooTest)" ++ [LF]
  ++ js "java.lang.AssertionError: expected:<1> but was:<2>" ++ [LF]
  ++ js "   at FooTest.testA(FooTest.java:9)" ++ [LF]
  ++ js "2) testA(FooTest)" ++ [LF]
  ++ js "java.lang.IllegalStateException: close failed" ++ [LF]
  ++ js "   at FooTest.tearDown(FooTest.java:20)" ++ [LF]
  ++ [LF] ++ js "FAILURES!!!" ++ [LF]
  ++ js "Tests run: 1,  Failures: 2" ++ [LF].

(** A failure block whose exception is not of the package java.lang. *)
Definition no_such_element_block : jsstring :=
  [LF] ++ js "java.util.NoSuchElementException: boom" ++ [LF]
  ++ js "   at FooTest.testC(FooTest.java:21)" ++ [LF].

End Samples.

Import Samples.

(** * The matcher *)

(** ** The matcher against the declarative reading *)

Section MatcherFacts.

Lemma star_sound greedy cls s :
  forall pv cs (c : cont) z,
    star greedy cls pv s cs c = Some z ->
    exists y, pstar cls (pv, s) (pos_of y) /\ caps y = cs /\ c y = Some z.
Proof.
  induction s as [|ch tl IH]; intros pv cs c z H; simpl in H.
  - exists (MState pv [] cs). repeat split; auto. apply pstar_nil.
  - assert (Hhere : c (MState pv (ch :: tl) cs) = Some z ->
              exists y, pstar cls (pv, ch :: tl) (pos_of y) /\ caps y = cs
                        /\ c y = Some z).
    { intro Hc. exists (MState pv (ch :: tl) cs). repeat split; auto.
      apply pstar_nil. }
    assert (Hnext : star greedy cls (Some ch) tl cs c = Some z ->
              cls ch = true ->
              exists y, pstar cls (pv, ch :: tl) (pos_of y) /\ caps y = cs
                        /\ c y = Some z).
    { intros Hs Hcls. destruct (IH _ _ _ _ Hs) as (y & Hy & Hcs & Hc).
      exists y. repeat split; auto. now apply pstar_cons. }
    destruct (cls ch) eqn:Hcls; [|now apply Hhere].
    destruct greedy.
    + destruct (star true cls (Some ch) tl cs c) eqn:Hs.
      * inversion H; subst. now apply Hnext.
      * now apply Hhere.
    + destruct (c (MState pv (ch :: tl) cs)) eqn:Hc.
      * inversion H; subst. now apply Hhere.
      * now apply Hnext.
Qed.


(** Soundness: a successful run of the matcher calls its continuation at a
    position the pattern can reach. *)
Lemma m_sound r :
  forall x (c : cont) z,
    m r x c = Some z ->
    exists y, psteps r (pos_of x) (pos_of y) /\ c y = Some z.
Proof.
  induction r as [|cls|r1 IH1 r2 IH2|r1 IH1 r2 IH2|greedy cls|i r1 IH1|ml|ml];
    intros x c z H; simpl in H.
  - exists x. split; auto. reflexivity.
  - destruct x as [pv s cs]; simpl in *. destruct s as [|ch tl]; [discriminate|].
    destruct (cls ch) eqn:Hcls; [|discriminate].
    exists (MState (Some ch) tl cs). split; auto.
    exists ch. simpl. auto.
  - destruct (IH1 _ _ _ H) as (y1 & H1 & Hk).
    destruct (IH2 _ _ _ Hk) as (y2 & H2 & Hc).
    exists y2. split; auto. exists (pos_of y1). auto.
  - destruct (m r1 x c) eqn:H1.
    + inversion H; subst. destruct (IH1 _ _ _ H1) as (y & Hy & Hc).
      exists y. split; auto. now left.
    + destruct (IH2 _ _ _ H) as (y & Hy & Hc).
      exists y. split; auto. now right.
  - destruct (star_sound _ _ _ _ _ _ H) as (y & Hy & _ & Hc).
    exists y. split; auto.
  - destruct (IH1 _ _ _ H) as (y & Hy & Hc).
    exists (MState (prev y) (rest y) ((i, taken x y) :: caps y)). split; auto.
  - destruct x as [pv s cs]; simpl in *. destruct pv as [p|].
    + destruct (ml && isLineTerminator p) eqn:Hp; [|discriminate].
      exists (MState (Some p) s cs). simpl. auto.
    + exists (MState None s cs). simpl. auto.
  - destruct x as [pv s cs]; simpl in *. destruct s as [|ch tl].
    + exists (MState pv [] cs). simpl. auto.
    + destruct (ml && isLineTerminator ch) eqn:Hp; [|discriminate].
      exists (MState pv (ch :: tl) cs). simpl. auto.
Qed.


End MatcherFacts.

(** ** Searching and enumerating matches *)

Section SearchFacts.

Lemma attempt_sound r pv s y :
  attempt r pv s = Some y -> psteps r (pv, s) (pos_of y).
Proof.
  unfold attempt. intro H. destruct (m_sound _ _ _ H) as (y0 & Hy & Hc).
  inversion Hc; subst. exact Hy.
Qed.


Lemma positions_head pv s : In (pv, s) (positions pv s).
Proof. destruct s; simpl; auto. Qed.




Lemma search_complete r s :
  forall pv pre p,
    In p (positions pv s) -> attempt r (fst p) (snd p) <> None ->
    search r pv pre s <> None.
Proof.
  induction s as [|ch tl IH]; intros pv pre p Hp Ha; simpl in Hp |- *.
  - destruct Hp as [<-|[]]. simpl in Ha.
    destruct (attempt r pv []); [discriminate|contradiction].
  - destruct (attempt r pv (ch :: tl)) eqn:E; [discriminate|].
    destruct Hp as [<-|Hp]; [simpl in Ha; congruence|].
    eapply IH; eauto.
Qed.


Lemma scan_nil r s :
  forall pv pre, scan r pv pre s 0 = [] -> search r pv pre s = None.
Proof.
  induction s as [|ch tl IH]; intros pv pre H; simpl in H |- *.
  - destruct (attempt r pv []); [discriminate|reflexivity].
  - destruct (attempt r pv (ch :: tl)); [discriminate|]. now apply IH.
Qed.

(** Every match [matchAll] yields is a successful attempt at a position of
    the input. *)
Lemma scan_In r s :
  forall pv pre skip mt,
    In mt (scan r pv pre s skip) ->
    exists p y, In p (positions pv s) /\ attempt r (fst p) (snd p) = Some y
                /\ captures mt = caps y.
Proof.
  induction s as [|ch tl IH]; intros pv pre skip mt H.
  - destruct skip; simpl in H; [|contradiction].
    destruct (attempt r pv []) as [y|] eqn:E; [|contradiction].
    destruct H as [<-|[]]. exists (pv, []), y. simpl. auto.
  - assert (Hrec : forall pre' k, In mt (scan r (Some ch) pre' tl k) ->
              exists p y, In p (positions pv (ch :: tl))
                          /\ attempt r (fst p) (snd p) = Some y
                          /\ captures mt = caps y).
    { intros pre' k Hk. destruct (IH _ _ _ _ Hk) as (p & y & Hp & Hy).
      exists p, y. split; [now right|exact Hy]. }
    destruct skip; simpl in H; [|now eapply Hrec; eauto].
    destruct (attempt r pv (ch :: tl)) as [y|] eqn:E.
    + destruct H as [<-|H]; [|now eapply Hrec; eauto].
      exists (pv, ch :: tl), y. simpl. auto.
    + now eapply Hrec; eauto.
Qed.

(** A global [match] is [null] exactly when [exec] finds nothing. *)
Lemma match_g_null r s : match_g r s = None <-> exec r s = None.
Proof.
  unfold match_g, matchAll, exec. split; intro H.
  - apply scan_nil. destruct (scan r None [] s 0); [reflexivity|discriminate].
  - destruct s as [|ch tl]; simpl in *.
    + destruct (attempt r None []); [discriminate|reflexivity].
    + destruct (attempt r None (ch :: tl)); [discriminate|].
      destruct (scan r (Some ch) [ch] tl 0) eqn:E; [reflexivity|].
      exfalso. assert (Hin : In r0 (scan r (Some ch) [ch] tl 0))
        by (rewrite E; now left).
      destruct (scan_In _ _ _ _ _ _ Hin) as (p & y & Hp & Hy & _).
      apply (search_complete r tl (Some ch) [ch] p Hp); congruence.
Qed.

Lemma scan_cons r pv pre ch tl :
  scan r pv pre (ch :: tl) 0
  = match attempt r pv (ch :: tl) with
    | Some y =>
        mk_match pre (ch :: tl) y
        :: scan r (Some ch) (ch :: pre) tl
                (pred (length (ch :: tl) - length (rest y)))
    | None => scan r (Some ch) (ch :: pre) tl 0
    end.
Proof. reflexivity. Qed.

(** The matches of a pattern of one code unit are the code units of its
    class. *)
Lemma scan_chr cls s :
  forall pv pre,
    List.map matched (scan (Chr cls) pv pre s 0)
    = List.map (fun c => [c]) (filter cls s).
Proof.
  induction s as [|ch tl IH]; intros pv pre; [reflexivity|].
  rewrite scan_cons. unfold attempt. cbn [m rest caps prev filter].
  destruct (cls ch) eqn:E.
  - unfold mk_match. cbn [rest map matched].
    replace (length (ch :: tl) - length tl) with 1 by (cbn [length]; lia).
    cbn [pred firstn]. now rewrite IH.
  - apply IH.
Qed.

Lemma match_g_chr cls s :
  match_g (Chr cls) s
  = match filter cls s with
    | [] => None
    | l => Some (List.map (fun c => [c]) l)
    end.
Proof.
  unfold match_g, matchAll.
  pose proof (scan_chr cls s None []) as H.
  destruct (scan (Chr cls) None [] s 0) as [|a l].
  - destruct (filter cls s); [reflexivity|discriminate].
  - rewrite H. destruct (filter cls s); [discriminate|reflexivity].
Qed.

End SearchFacts.

(** * Properties of [run] *)

Section Counting.

Lemma or_else_nil s : or_else s [] = s.
Proof. now destruct s. Qed.

Lemma period_class c : char_eqb 46%N c = is_period c.
Proof. unfold char_eqb, is_period. apply N.eqb_sym. Qed.

Lemma error_class c :
  char_eqb (canonicalize c) (canonicalize 69%N) = is_failure_glyph c.
Proof.
  unfold char_eqb, is_failure_glyph, canonicalize.
  change ((97 <=? 69)%N && (69 <=? 122)%N) with false. cbv iota.
  destruct (N.leb_spec 97 c), (N.leb_spec c 122); cbn [andb];
    destruct (N.eqb_spec c 69), (N.eqb_spec c 101); cbn [orb];
    first [ reflexivity | exfalso; lia
          | apply N.eqb_eq; lia | apply N.eqb_neq; lia ].
Qed.

Lemma match_g_period dots :
  match_g period_re dots
  = match filter is_period dots with
    | [] => None
    | l => Some (List.map (fun c => [c]) l)
    end.
Proof.
  change period_re with (Chr (char_eqb 46%N)). rewrite match_g_chr.
  now rewrite (filter_ext _ _ period_class).
Qed.

Lemma match_g_error dots :
  match_g error_re dots
  = match filter is_failure_glyph dots with
    | [] => None
    | l => Some (List.map (fun c => [c]) l)
    end.
Proof.
  change error_re
    with (Chr (fun c => char_eqb (canonicalize c) (canonicalize 69%N))).
  rewrite match_g_chr. now rewrite (filter_ext _ _ error_class).
Qed.

(** What lines 228 and 229 compute: the numbers of periods and of failure
    glyphs, and a [TypeError] when one of them is zero. *)
Lemma count_tests_spec dots k :
  count_tests dots k
  = match count is_period dots, count is_failure_glyph dots with
    | S p, S e => (Normal (S p, S e), k)
    | _, _ => (Throw TypeError, k)
    end.
Proof.
  unfold count_tests, bind, non_null, count.
  rewrite match_g_period.
  destruct (filter is_period dots) as [|a l] eqn:Ep; [reflexivity|].
  cbn [ret]. rewrite match_g_error.
  destruct (filter is_failure_glyph dots) as [|b l'] eqn:Ee; [reflexivity|].
  cbn [ret throw length]. now rewrite !length_map.
Qed.

Lemma marker_line_spec out k :
  marker_line out k
  = match exec version_re out with
    | Some mt => (Normal (group 2 mt), k)
    | None => (Throw TypeError, k)
    end.
Proof.
  unfold marker_line, bind, non_null.
  destruct (exec version_re out); cbn [ret throw]; [|reflexivity].
  now rewrite or_else_nil.
Qed.

End Counting.

Section RunFacts.

Variable i : inputs.

Lemma run_failed_spec error k :
  run_failed i error k
  = match exec version_re (captured_stdout error) with
    | Some mt =>
        match count is_period (group 2 mt),
              count is_failure_glyph (group 2 mt) with
        | S p, S e =>
            (Normal false,
             k ++ [Payload (failed_result i error (captured_stdout error)
                              (S p) (S e))])
        | _, _ => (Throw TypeError, k)
        end
    | None => (Throw TypeError, k)
    end.
Proof.
  unfold run_failed. unfold bind at 1. rewrite marker_line_spec.
  destruct (exec version_re (captured_stdout error)) as [mt|]; [|reflexivity].
  unfold bind at 1. rewrite count_tests_spec.
  destruct (count is_period (group 2 mt)); [reflexivity|].
  destruct (count is_failure_glyph (group 2 mt)); reflexivity.
Qed.

Lemma version_re_empty : exec version_re [] = None.
Proof. reflexivity. Qed.

(** A run that exits with status 0: one payload when the version pattern
    matches the output; otherwise the [TypeError] of line 172 enters the
    [catch] block, where line 225 throws it again. *)
Lemma run_exited0 out k :
  run i (Exited0 out) k
  = match exec version_re out with
    | Some mt => (Normal None, k ++ [Payload (passed_result i (group 2 mt))])
    | None => (Throw TypeError, k)
    end.
Proof.
  unfold run, try_catch, bind, execSync, ret, run_passed.
  unfold bind. rewrite marker_line_spec.
  destruct (exec version_re out) as [mt|]; [reflexivity|].
  rewrite run_failed_spec. reflexivity.
Qed.

(** A run whose command exits with another status. *)
Lemma run_threw out err k :
  run i (ExecThrew out err) k
  = match run_failed i (ChildProcessError out err) k with
    | (Normal b, k') => (Normal (Some b), k')
    | (Throw e, k') => (Throw e, k')
    end.
Proof. reflexivity. Qed.

End RunFacts.

(** * The patterns on texts of a known form *)

(** ** The marker line of an output of JUnit *)

Section MarkerLine.

Lemma first_some {A} (o alt : option A) w :
  o = Some w -> match o with Some y => Some y | None => alt end = Some w.
Proof. now intros ->. Qed.

Lemma commits_seq r1 r2 x y z :
  commits r1 x y -> commits r2 y z -> commits (Seq r1 r2) x z.
Proof.
  intros H1 H2 c w Hc. cbn [m]. apply H1. now apply H2.
Qed.

Lemma commits_group i r x y :
  commits r x y ->
  commits (Group i r) x (MState (prev y) (rest y) ((i, taken x y) :: caps y)).
Proof. intros H c w Hc. cbn [m]. now apply H. Qed.

Lemma commits_chr cls pv ch s cs :
  cls ch = true ->
  commits (Chr cls) (MState pv (ch :: s) cs) (MState (Some ch) s cs).
Proof. intros H c w Hc. cbn [m rest caps]. now rewrite H. Qed.

Lemma commits_lit_chars l :
  forall pv s cs,
    commits (seqs (List.map chr l)) (MState pv (l ++ s) cs)
            (MState (last_of pv l) s cs).
Proof.
  induction l as [|a l IH]; intros pv s cs.
  - intros c w Hc. exact Hc.
  - assert (Ha : commits (chr a) (MState pv (a :: l ++ s) cs)
                   (MState (Some a) (l ++ s) cs)).
    { apply commits_chr. apply N.eqb_refl. }
    destruct l as [|b l'].
    + exact Ha.
    + change (seqs (List.map chr (a :: b :: l')))
        with (Seq (chr a) (seqs (List.map chr (b :: l')))).
      eapply commits_seq; [exact Ha|]. apply IH.
Qed.

Lemma commits_lit str pv s cs :
  commits (lit str) (MState pv (js str ++ s) cs)
          (MState (last_of pv (js str)) s cs).
Proof. apply commits_lit_chars. Qed.

(** A greedy star first takes every code unit of its class. *)
Lemma commits_star_greedy cls t s cs :
  Forall (fun c => cls c = true) t -> not_in cls s ->
  forall pv,
    commits (Star true cls) (MState pv (t ++ s) cs)
            (MState (last_of pv t) s cs).
Proof.
  intros Ht Hs. induction Ht as [|ch t Hch _ IH]; intros pv c w Hc.
  - cbn [m prev rest caps app last_of] in *.
    destruct s as [|a s']; [exact Hc|]. cbn [star]. cbn in Hs.
    now rewrite Hs.
  - cbn [m prev rest caps app star]. rewrite Hch.
    specialize (IH (Some ch) c w Hc). cbn [m prev rest caps] in IH.
    now rewrite IH.
Qed.

Lemma commits_digits t s cs pv :
  digits t -> not_in isDigit s ->
  commits (plus isDigit) (MState pv (t ++ s) cs) (MState (last_of pv t) s cs).
Proof.
  intros [Hne Ht] Hs. destruct t as [|ch t]; [contradiction|].
  inversion Ht; subst. unfold plus. cbn [last_of app].
  eapply commits_seq; [now apply commits_chr|].
  now apply commits_star_greedy.
Qed.

Lemma commits_opt_skip a x :
  not_in (char_eqb a) (rest x) -> commits (opt (chr a)) x x.
Proof.
  intros H c w Hc. unfold opt, chr. cbn [m].
  destruct (rest x) as [|b s]; [exact Hc|]. cbn in H. now rewrite H.
Qed.

Lemma digit_not_white c : isDigit c = true -> isWhiteSpace c = false.
Proof.
  unfold isDigit, isWhiteSpace. intro H. apply andb_prop in H as [H1 H2].
  apply N.leb_le in H1, H2.
  repeat match goal with
         | |- context [N.leb ?a ?b] => destruct (N.leb_spec a b); try lia
         | |- context [N.eqb ?a ?b] => destruct (N.eqb_spec a b); try lia
         end; reflexivity.
Qed.

Lemma digits_head_not_white t s : digits t -> not_in isWhiteSpace (t ++ s).
Proof.
  intros [Hne Ht]. destruct t as [|c t]; [contradiction|].
  inversion Ht; subst. now apply digit_not_white.
Qed.

Lemma dot_not_break a :
  dot a = true -> char_eqb CR a = false /\ char_eqb LF a = false.
Proof.
  unfold dot, isLineTerminator, char_eqb, CR, LF. intro H.
  rewrite (N.eqb_sym 13 a), (N.eqb_sym 10 a).
  destruct (N.eqb a 10), (N.eqb a 13); try discriminate. auto.
Qed.

Lemma version_end_fails_inside pv a s cs (c : cont) :
  dot a = true -> m version_end (MState pv (a :: s) cs) c = None.
Proof.
  intro H. destruct (dot_not_break a H) as [Hcr Hlf].
  unfold version_end, opt, chr. cbn [m rest prev caps andb].
  now rewrite Hcr, Hlf.
Qed.

Lemma version_end_commits pv tail cs :
  line_end tail ->
  exists y, commits version_end (MState pv tail cs) y
            /\ exists brk, caps y = (3, brk) :: cs.
Proof.
  intros [|rest0|rest0].
  - exists (MState pv [] ((3, []) :: cs)). split; [|now exists []].
    intros c w Hc. exact Hc.
  - exists (MState (Some LF) rest0 ((3, [LF]) :: cs)).
    split; [|now exists [LF]].
    intros c w Hc. unfold version_end, opt, chr. cbn [m rest prev caps].
    change (char_eqb CR LF) with false. change (char_eqb LF LF) with true.
    cbv iota. unfold taken. cbn [rest length].
    replace (S (length rest0) - length rest0) with 1 by lia.
    cbn [firstn]. apply first_some. exact Hc.
  - exists (MState (Some LF) rest0 ((3, [CR; LF]) :: cs)).
    split; [|now exists [CR; LF]].
    intros c w Hc. unfold version_end, opt, chr. cbn [m rest prev caps].
    change (char_eqb CR CR) with true. change (char_eqb LF LF) with true.
    cbv iota. unfold taken. cbn [rest length].
    replace (S (S (length rest0)) - length rest0) with 2 by lia.
    cbn [firstn]. do 2 apply first_some. exact Hc.
Qed.

(** A lazy star stops at the first position the continuation accepts. *)
Lemma star_lazy_first cls t s cs (k : cont) z :
  Forall (fun c => cls c = true) t ->
  forall pv,
    (forall t1 a t2, t = t1 ++ a :: t2 ->
                     k (MState (last_of pv t1) (a :: t2 ++ s) cs) = None) ->
    k (MState (last_of pv t) s cs) = Some z ->
    star false cls pv (t ++ s) cs k = Some z.
Proof.
  induction 1 as [|ch t Hch _ IH]; intros pv Hfail Hend.
  - cbn [app last_of] in *. destruct s as [|a s']; [exact Hend|].
    cbn [star]. rewrite Hend. now destruct (cls a).
  - cbn [app star]. rewrite Hch.
    pose proof (Hfail [] ch t eq_refl) as H0. cbn [last_of app] in H0.
    rewrite H0. apply IH.
    + intros t1 a t2 E. apply (Hfail (ch :: t1) a t2). now rewrite E.
    + exact Hend.
Qed.

(** The marker line and what ends it, groups 2 and 3 of the version
    pattern. *)
Lemma marker_group_commits dots tail pv cs :
  one_line dots -> line_end tail ->
  exists y, commits (Seq (Group 2 (Star false dot)) version_end)
                    (MState pv (dots ++ tail) cs) y
            /\ exists brk, caps y = (3, brk) :: (2, dots) :: cs.
Proof.
  intros Hd Ht.
  destruct (version_end_commits (last_of pv dots) ((2, dots) :: cs) Ht)
    as (y & Hy & brk & Hcaps).
  exists y. split; [|now exists brk].
  intros c w Hc. cbn [m prev rest caps].
  apply star_lazy_first; [exact Hd| |].
  - intros t1 a t2 E. cbn [prev rest caps].
    apply version_end_fails_inside.
    unfold one_line in Hd. rewrite E in Hd.
    apply Forall_app in Hd as [_ Hd]. now inversion Hd.
  - cbn [prev rest caps]. unfold taken. cbn [rest]. rewrite length_app.
    replace (length dots + length tail - length tail) with (length dots + 0)
      by lia.
    rewrite firstn_app_2. cbn [firstn]. rewrite app_nil_r.
    now apply Hy.
Qed.

Lemma attempt_version_head pv a s :
  char_eqb 118%N a = false -> attempt version_re pv (a :: s) = None.
Proof.
  intro H. unfold attempt.
  change version_re
    with (Seq (Seq (chr 118%N) (lit "ersion"))
              (seqs [Star true isWhiteSpace; plus isDigit; lit ".";
                     plus isDigit; Group 1 (Seq (lit ".") (plus isDigit));
                     opt (chr CR); chr LF; Group 2 (Star false dot);
                     version_end])).
  unfold chr at 1. cbn [m rest]. now rewrite H.
Qed.

Lemma search_version_skip banner s :
  no_v banner ->
  forall pv pre,
    search version_re pv pre (banner ++ s)
    = search version_re (last_of pv banner) (rev banner ++ pre) s.
Proof.
  induction 1 as [|a t Ha _ IH]; intros pv pre; [reflexivity|].
  cbn [app search last_of rev]. rewrite (@attempt_version_head pv a (t ++ s) Ha).
  rewrite IH. now rewrite <- app_assoc.
Qed.

Lemma search_here r pv pre s y :
  attempt r pv s = Some y -> search r pv pre s = Some (mk_match pre s y).
Proof. intro H. destruct s; cbn [search]; now rewrite H. Qed.

(** The version pattern on an output of JUnit: group 2 is the marker
    line. *)
Lemma junit_marker_line banner major minor patch dots tail :
  no_v banner -> digits major -> digits minor -> digits patch ->
  one_line dots -> line_end tail ->
  exists mt,
    exec version_re (junit_output banner major minor patch dots tail)
    = Some mt
    /\ group 2 mt = dots.
Proof.
  intros Hb Hma Hmi Hpa Hd Ht.
  set (s6 := dots ++ tail).
  set (s5 := [LF] ++ s6).
  set (s4 := patch ++ s5).
  set (s3 := js "." ++ s4).
  set (s2 := minor ++ s3).
  set (s1 := js "." ++ s2).
  set (s0 := major ++ s1).
  set (pv := last_of None banner).
  destruct (marker_group_commits (Some LF)
              [(1, taken (MState (last_of (last_of (Some 46%N) major) minor) s3 [])
                          (MState (last_of (Some 46%N) patch) s5 []))]
              Hd Ht) as (y & Hy & brk & Hcaps).
  assert (Hrun : attempt version_re pv (js "version " ++ s0) = Some y).
  { unfold attempt.
    change version_re
      with (Seq (lit "version")
             (Seq (Star true isWhiteSpace)
                (Seq (plus isDigit)
                   (Seq (lit ".")
                      (Seq (plus isDigit)
                         (Seq (Group 1 (Seq (lit ".") (plus isDigit)))
                            (Seq (opt (chr CR))
                               (Seq (chr LF)
                                  (Seq (Group 2 (Star false dot))
                                       version_end))))))))).
    assert (Hall :
      commits
        (Seq (lit "version")
           (Seq (Star true isWhiteSpace)
              (Seq (plus isDigit)
                 (Seq (lit ".")
                    (Seq (plus isDigit)
                       (Seq (Group 1 (Seq (lit ".") (plus isDigit)))
                          (Seq (opt (chr CR))
                             (Seq (chr LF)
                                (Seq (Group 2 (Star false dot))
                                     version_end)))))))))
        (MState pv (js "version " ++ s0) []) y).
    { eapply commits_seq.
      { apply (commits_lit "version" pv ([32%N] ++ s0) []). }
      eapply commits_seq.
      { apply (@commits_star_greedy isWhiteSpace [32%N] s0 []).
        - repeat constructor.
        - now apply digits_head_not_white. }
      eapply commits_seq.
      { apply (@commits_digits major s1 []); auto. exact eq_refl. }
      eapply commits_seq.
      { apply (commits_lit "." _ s2 []). }
      eapply commits_seq.
      { apply (@commits_digits minor s3 []); auto. exact eq_refl. }
      eapply commits_seq.
      { apply commits_group. eapply commits_seq.
        - apply (commits_lit "." _ s4 []).
        - apply (@commits_digits patch s5 []); auto. exact eq_refl. }
      eapply commits_seq.
      { apply commits_opt_skip. exact eq_refl. }
      eapply commits_seq.
      { cbn [prev rest caps]. apply commits_chr. exact eq_refl. }
      exact Hy. }
    now apply Hall. }
  exists (mk_match (rev banner ++ []) (js "version " ++ s0) y).
  split.
  - unfold exec, junit_output. fold s6 s5 s4 s3 s2 s1 s0.
    rewrite (@search_version_skip banner (js "version " ++ s0) Hb). fold pv.
    now apply search_here.
  - unfold group, mk_match. cbn [captures]. rewrite Hcaps. reflexivity.
Qed.

End MarkerLine.

(** ** The two removals of line 292 *)

Section Removals.

Lemma canonicalize_refl a : char_eqb (canonicalize a) (canonicalize a) = true.
Proof. apply N.eqb_refl. Qed.

Lemma commits_lit_i_chars l :
  forall pv s cs,
    commits (seqs (List.map chr_i l)) (MState pv (l ++ s) cs)
            (MState (last_of pv l) s cs).
Proof.
  induction l as [|a l IH]; intros pv s cs.
  - intros c w Hc. exact Hc.
  - assert (Ha : commits (chr_i a) (MState pv (a :: l ++ s) cs)
                   (MState (Some a) (l ++ s) cs)).
    { apply commits_chr. apply canonicalize_refl. }
    destruct l as [|b l'].
    + exact Ha.
    + change (seqs (List.map chr_i (a :: b :: l')))
        with (Seq (chr_i a) (seqs (List.map chr_i (b :: l')))).
      eapply commits_seq; [exact Ha|]. apply IH.
Qed.

(** The wrapper of a timed-out test at the start of a line is removed. *)
Lemma timed_out_prefix_removed post :
  replace timed_out_re []
    (js "org.junit.runners.model.TestTimedOutException:" ++ post)
  = post.
Proof.
  unfold replace, exec.
  rewrite (@search_here timed_out_re None []
             (js "org.junit.runners.model.TestTimedOutException:" ++ post)
             (MState (Some 58%N) post [])).
  - reflexivity.
  - unfold attempt.
    apply (@commits_lit_i_chars
             (js "org.junit.runners.model.TestTimedOutException:")
             None post []).
    reflexivity.
Qed.

(** A greedy star falls back to its starting position when the
    continuation refuses every further one. *)
Lemma star_greedy_fallback cls u s cs (k : cont) :
  Forall (fun c => cls c = true) u -> not_in cls s ->
  (forall u1 a u2 pv', u = u1 ++ a :: u2 ->
                       k (MState pv' (u2 ++ s) cs) = None) ->
  forall pv, star true cls pv (u ++ s) cs k = k (MState pv (u ++ s) cs).
Proof.
  intros Hu Hs. induction Hu as [|a u Ha _ IH]; intros Hfail pv.
  - cbn [app]. destruct s as [|b s']; [reflexivity|]. cbn [star].
    cbn in Hs. now rewrite Hs.
  - cbn [app star]. rewrite Ha. rewrite IH.
    + now rewrite (Hfail [] a u (Some a) eq_refl).
    + intros u1 b u2 pv' E. apply (Hfail (a :: u1) b u2 pv'). now rewrite E.
Qed.

(** It stops at the last position the continuation accepts. *)
Lemma star_greedy_last cls t u s cs (k : cont) z :
  Forall (fun c => cls c = true) t ->
  Forall (fun c => cls c = true) u -> not_in cls s ->
  (forall u1 a u2 pv', u = u1 ++ a :: u2 ->
                       k (MState pv' (u2 ++ s) cs) = None) ->
  forall pv,
    k (MState (last_of pv t) (u ++ s) cs) = Some z ->
    star true cls pv (t ++ u ++ s) cs k = Some z.
Proof.
  intros Ht Hu Hs Hfail. induction Ht as [|a t Ha _ IH]; intros pv Hz.
  - cbn [app last_of] in *. now rewrite star_greedy_fallback.
  - cbn [app star last_of] in *. rewrite Ha. now rewrite (IH (Some a) Hz).
Qed.

Lemma colon_only a :
  char_eqb (canonicalize a) (canonicalize 58%N) = true -> a = 58%N.
Proof.
  unfold char_eqb, canonicalize.
  change ((97 <=? 58)%N && (58 <=? 122)%N) with false. cbv iota.
  destruct (N.leb_spec 97 a), (N.leb_spec a 122); cbn [andb];
    intro Heq; apply N.eqb_eq in Heq; lia.
Qed.

(** At the start of a line, java.lang. and everything up to the last colon
    of the line are removed. *)
Lemma java_lang_prefix_removed mid post :
  one_line mid -> one_line post -> ~ In 58%N post ->
  replace java_lang_re [] (js "java.lang." ++ mid ++ [58%N] ++ post) = post.
Proof.
  intros Hm Hp Hcolon. unfold replace, exec.
  rewrite (@search_here java_lang_re None []
             (js "java.lang." ++ mid ++ [58%N] ++ post)
             (MState (Some 58%N) post [(1, mid)])); [reflexivity|].
  unfold attempt.
  change java_lang_re
    with (Seq (lit_i "java.lang.") (Seq (Group 1 (Star true dot)) (lit_i ":"))).
  cbn [m]. apply (@commits_lit_i_chars (js "java.lang.") None
                    (mid ++ [58%N] ++ post) []).
  cbn [m prev rest caps].
  rewrite <- (app_nil_r ([58%N] ++ post)).
  apply star_greedy_last.
  - exact Hm.
  - constructor; [reflexivity|exact Hp].
  - exact I.
  - intros u1 a u2 pv' E. rewrite app_nil_r. cbn [prev rest caps].
    unfold lit_i, chr_i. cbn [js List.map list_ascii_of_string seqs m rest].
    destruct u2 as [|b u2']; [reflexivity|].
    destruct (char_eqb (canonicalize b) _) eqn:Eb; [|reflexivity].
    exfalso. apply colon_only in Eb. subst b. apply Hcolon.
    destruct u1 as [|c u1']; cbn [app] in E; inversion E; subst.
    + now left.
    + apply in_or_app. right. right. now left.
  - rewrite app_nil_r. cbn [prev rest caps app].
    unfold lit_i, chr_i. cbn [js List.map list_ascii_of_string seqs m rest caps].
    change (char_eqb (canonicalize 58%N) (canonicalize (N_of_ascii ":")))
      with true. cbv iota. unfold taken. cbn [rest]. rewrite !app_nil_r.
    rewrite length_app. cbn [length].
    replace (length mid + S (length post) - S (length post))
      with (length mid + 0) by lia.
    rewrite firstn_app_2. cbn [firstn]. now rewrite app_nil_r.
Qed.

End Removals.

(** ** Parsing an output of JUnit *)

(** On an output of the form JUnit prints, the marker line is the line
    after the version line, and lines 228 and 229 count its periods and its
    failure glyphs. *)
Lemma junit_output_counts banner major minor patch dots tail k :
  no_v banner -> digits major -> digits minor -> digits patch ->
  one_line dots -> line_end tail ->
  marker_line (junit_output banner major minor patch dots tail) k
  = (Normal dots, k)
  /\ count_tests dots k
     = match count is_period dots, count is_failure_glyph dots with
       | S p, S e => (Normal (S p, S e), k)
       | _, _ => (Throw TypeError, k)
       end.
Proof.
  intros Hb Hma Hmi Hpa Hd Ht.
  destruct (@junit_marker_line banner major minor patch dots tail
              Hb Hma Hmi Hpa Hd Ht) as (mt & Hm & Hg).
  split; [|apply count_tests_spec].
  now rewrite marker_line_spec, Hm, Hg.
Qed.

Example junit_output_sample :
  junit_output (js "JUnit ") (js "4") (js "13") (js "2") (js "..E.E")
    ([LF] ++ js "Time: 0.01" ++ [LF])
  = junit_version_line ++ js "..E.E" ++ [LF] ++ js "Time: 0.01" ++ [LF].
Proof. reflexivity. Qed.

(** * The claims about parsing and scoring *)

Lemma count_le_length cls (s : jsstring) : count cls s <= length s.
Proof. unfold count. apply filter_length_le. Qed.

Lemma count_two_classes (a b : char -> bool) (s : jsstring) :
  (forall c, a c && b c = false) ->
  Forall (fun c => a c || b c = true) s ->
  count a s + count b s = length s.
Proof.
  intros Hdisj H. unfold count. induction H as [|c l Hc _ IH]; [reflexivity|].
  specialize (Hdisj c). cbn [filter length].
  destruct (a c), (b c); try discriminate; cbn [length]; lia.
Qed.

Lemma glyphs_disjoint c : is_period c && is_failure_glyph c = false.
Proof.
  unfold is_period, is_failure_glyph.
  destruct (N.eqb_spec c 46), (N.eqb_spec c 69), (N.eqb_spec c 101);
    subst; try reflexivity; discriminate.
Qed.

(** C1 (as the code has it).  For every runner output in which the version
    pattern finds a marker line holding at least one period and at least one
    failure glyph (E or e), lines 223 to 229 yield a total test count equal
    to the number of periods of the marker line and a failed test count
    equal to the number of failure glyphs; the total is the length of the
    line minus the failed count when the line holds no other glyph. *)
Theorem marker_counts_periods_and_failures out mt k :
  exec version_re out = Some mt ->
  1 <= count is_period (group 2 mt) ->
  1 <= count is_failure_glyph (group 2 mt) ->
  (dots <- marker_line out ;; count_tests dots)%action k
  = (Normal (count is_period (group 2 mt),
             count is_failure_glyph (group 2 mt)), k)
  /\ (Forall (fun c => is_period c || is_failure_glyph c = true) (group 2 mt)
      -> count is_period (group 2 mt)
         = length (group 2 mt) - count is_failure_glyph (group 2 mt)).
Proof.
  intros Hm Hp He. split.
  - unfold bind. rewrite marker_line_spec, Hm, count_tests_spec.
    destruct (count is_period (group 2 mt)); [lia|].
    destruct (count is_failure_glyph (group 2 mt)); [lia|]. reflexivity.
  - intro Hall.
    pose proof (count_two_classes is_period is_failure_glyph glyphs_disjoint
                  Hall). lia.
Qed.

Lemma marker_counts_witness :
  (dots <- marker_line two_of_five_failed ;; count_tests dots)%action []
  = (Normal (3, 2), []).
Proof.
  destruct (exec version_re two_of_five_failed) as [mt|] eqn:E;
    [|vm_compute in E; discriminate].
  assert (Hg : group 2 mt = js "..E.E").
  { vm_compute in E. inversion E; subst. reflexivity. }
  destruct (@marker_counts_periods_and_failures two_of_five_failed mt [] E)
    as [H _].
  - rewrite Hg. vm_compute. lia.
  - rewrite Hg. vm_compute. lia.
  - rewrite H, Hg. reflexivity.
Defined.

(** C1, as stated, fails: the marker line of this output has length 5 and
    two failure glyphs, and the total test count is 3. *)
Lemma total_is_not_marker_length :
  marker_line two_of_five_failed [] = (Normal (js "..E.E"), [])
  /\ length (js "..E.E") = 5
  /\ count_tests (js "..E.E") [] = (Normal (3, 2), [])
  /\ 3 <> 5.
Proof. repeat split; try (vm_compute; reflexivity). discriminate. Qed.

Lemma failed_run_emits i out err mt k p e :
  exec version_re (trim out) = Some mt ->
  count is_period (group 2 mt) = S p ->
  count is_failure_glyph (group 2 mt) = S e ->
  run i (ExecThrew (Some out) err) k
  = (Normal (Some false),
     k ++ [Payload (failed_result i (ChildProcessError (Some out) err)
                      (trim out) (S p) (S e))]).
Proof.
  intros Hm Hp He. rewrite run_threw, run_failed_spec.
  cbn [captured_stdout exn_stdout]. now rewrite Hm, Hp, He.
Qed.

(** C2 (as the code has it).  For every failing run with partial credit
    whose marker line holds testCount >= 1 periods and errorCount >= 1
    failure glyphs, the report carries the score
    [+((testCount - errorCount) / testCount * maxScore).toFixed(2)], where
    testCount is the number of periods of the marker line. *)
Theorem partial_credit_score i out err mt k :
  partialCredit i = true ->
  exec version_re (trim out) = Some mt ->
  1 <= count is_period (group 2 mt) ->
  1 <= count is_failure_glyph (group 2 mt) ->
  exists r,
    run i (ExecThrew (Some out) err) k = (Normal (Some false), k ++ [Payload r])
    /\ reported_score r
       = Some (Number.round2
                 ((Number.of_nat (count is_period (group 2 mt))
                   - Number.of_nat (count is_failure_glyph (group 2 mt)))
                  / Number.of_nat (count is_period (group 2 mt))
                  * maxScore i)%float).
Proof.
  intros Hpc Hm Hp He.
  destruct (count is_period (group 2 mt)) as [|p] eqn:Ep; [lia|].
  destruct (count is_failure_glyph (group 2 mt)) as [|e] eqn:Ee; [lia|].
  eexists. split; [apply (failed_run_emits i out err k Hm Ep Ee)|].
  unfold reported_score, failed_result, awarded, raw_score. cbn [tests score].
  now rewrite Hpc.
Qed.

(** The scenario of C2 on the code: marker line ..E.E, two structured
    failure blocks, partial credit, ceiling 10: the score is 3.33. *)
Lemma partial_credit_score_witness :
  exists r,
    run (sample_inputs true 10) (ExecThrew (Some two_of_five_failed) None) []
    = (Normal (Some false), [Payload r])
    /\ reported_score r = Some (333 / 100)%float.
Proof.
  destruct (exec version_re (trim two_of_five_failed)) as [mt|] eqn:E;
    [|vm_compute in E; discriminate].
  assert (Hg : group 2 mt = js "..E.E").
  { vm_compute in E. inversion E; subst. reflexivity. }
  destruct (@partial_credit_score (sample_inputs true 10) two_of_five_failed
              None mt [] eq_refl E) as (r & Hr & Hs).
  - rewrite Hg. vm_compute. lia.
  - rewrite Hg. vm_compute. lia.
  - exists r. split; [exact Hr|]. rewrite Hs, Hg. vm_compute. reflexivity.
Defined.

(** C2, as stated, fails on its own scenario: the score is 3.33, not 6.00. *)
Lemma two_of_five_scores_3_33 :
  exists r,
    run (sample_inputs true 10) (ExecThrew (Some two_of_five_failed) None) []
    = (Normal (Some false), [Payload r])
    /\ reported_score r = Some (333 / 100)%float
    /\ ((333 / 100 =? 6) = false)%float
    /\ List.map fst (List.map classify (failure_blocks (trim two_of_five_failed)))
       = [[Cells (js "msg") (js "A") (js "B")];
          [Cells (js "Test failed") (js "[a]") (js "[b]")]].
Proof.
  eexists. split; [vm_compute; reflexivity|].
  repeat split; vm_compute; reflexivity.
Qed.

(** [toFixed(2)] rounds the exact value of its argument half up: the
    integer it prints is the floor of [100 * |x| + 1/2]. *)
Lemma hundredths_half_up x s mant e :
  Prim2SF (abs x) = S754_finite s mant e ->
  let n := Number.hundredths x in
  ((0 <= e -> n = Zpos mant * 2 ^ e * 100)
   /\ (e < 0 ->
       2 * n * 2 ^ (- e) <= 200 * Zpos mant + 2 ^ (- e)
       < (2 * n + 2) * 2 ^ (- e)))%Z.
Proof.
  intros H n. unfold n, Number.hundredths. rewrite H. split; intro He.
  - destruct (Z.leb_spec 0 e); [reflexivity|lia].
  - destruct (Z.leb_spec 0 e); [lia|].
    replace (1 - e)%Z with (1 + - e)%Z by lia.
    rewrite Z.pow_add_r by lia. change (2 ^ 1)%Z with 2%Z.
    set (d := (2 ^ (- e))%Z). assert (Hd : (0 < d)%Z) by (apply Z.pow_pos_nonneg; lia).
    set (a := (Zpos mant * 200 + d)%Z).
    pose proof (Z.div_mod a (2 * d)%Z ltac:(lia)) as Hdm.
    pose proof (Z.mod_pos_bound a (2 * d)%Z ltac:(lia)) as Hb.
    unfold a in *. nia.
Qed.

(** * The claims about error paths and zero tests *)

(** C3 (what the code does).  When the test command exits with a status
    other than 0 and its output is empty, [re.exec] returns [null] at line
    224, line 225 throws a [TypeError] inside the [catch] block, and [run]
    ends without a call of [core.setOutput], whatever the standard error
    output was. *)
Theorem empty_stdout_emits_nothing i stderr k :
  run i (ExecThrew (Some []) (Some stderr)) k = (Throw TypeError, k).
Proof. rewrite run_threw, run_failed_spec. reflexivity. Qed.

(** The same holds for every output in which the version pattern finds no
    match, and for a marker line without a period or without a failure
    glyph. *)
Lemma unparsable_stdout_emits_nothing i out err k :
  exec version_re (captured_stdout (ChildProcessError out err)) = None ->
  run i (ExecThrew out err) k = (Throw TypeError, k).
Proof. intro H. now rewrite run_threw, run_failed_spec, H. Qed.

Lemma marker_without_failure_glyph_emits_nothing i out err mt k :
  exec version_re (captured_stdout (ChildProcessError out err)) = Some mt ->
  count is_failure_glyph (group 2 mt) = 0 ->
  run i (ExecThrew out err) k = (Throw TypeError, k).
Proof.
  intros H H0. rewrite run_threw, run_failed_spec, H, H0.
  now destruct (count is_period (group 2 mt)).
Qed.

(** C4 (as the code has it).  When the test command exits with status 0 and
    the marker line is empty (zero tests detected), the engine emits one
    report with status pass whose score is the score ceiling. *)
Theorem zero_tests_pass_with_max_score i out mt k :
  exec version_re out = Some mt ->
  group 2 mt = [] ->
  exists r,
    run i (Exited0 out) k = (Normal None, k ++ [Payload r])
    /\ status r = js "pass"
    /\ reported_score r = Some (maxScore i).
Proof.
  intros Hm Hg. exists (passed_result i []).
  rewrite run_exited0, Hm, Hg. repeat split.
Qed.

Lemma zero_tests_witness :
  exists r,
    run (sample_inputs true 10) (Exited0 no_tests_run) [] = (Normal None, [Payload r])
    /\ status r = js "pass"
    /\ reported_score r = Some 10%float.
Proof.
  destruct (exec version_re no_tests_run) as [mt|] eqn:E;
    [|vm_compute in E; discriminate].
  assert (Hg : group 2 mt = []).
  { vm_compute in E. inversion E; subst. reflexivity. }
  exact (@zero_tests_pass_with_max_score (sample_inputs true 10) no_tests_run
           mt [] E Hg).
Defined.

(** C4, as stated, fails: zero tests after exit status 0 are reported as a
    pass with the full score, and nothing is thrown. *)
Lemma zero_tests_reported_as_pass :
  marker_line no_tests_run [] = (Normal [], [])
  /\ exists r,
       run (sample_inputs true 10) (Exited0 no_tests_run) []
       = (Normal None, [Payload r])
       /\ status r = js "pass"
       /\ reported_score r = Some (maxScore (sample_inputs true 10)).
Proof.
  split; [vm_compute; reflexivity|].
  eexists. split; [vm_compute; reflexivity|]. split; reflexivity.
Qed.

(** * The claims about the score *)

Lemma leb_refl_of_nonneg (x : float) :
  (0 <=? x)%float = true -> (x <=? x)%float = true.
Proof.
  rewrite !leb_spec. unfold SFleb, SFcompare.
  destruct (Prim2SF x) as [s|s| |s mant e]; simpl; try congruence.
  - now destruct s.
  - destruct s; simpl; try congruence.
    now rewrite Z.compare_refl, Pos.compare_refl.
Qed.

Lemma passed_score i dots :
  reported_score (passed_result i dots) = Some (maxScore i).
Proof. reflexivity. Qed.

Lemma failed_score i error out t e :
  reported_score (failed_result i error out t e) = Some (awarded i t e).
Proof. reflexivity. Qed.

(** The reports [run] can emit, by the outcome of the test command. *)
Lemma run_report i o c r :
  run i o [] = (c, [Payload r]) ->
  match o with
  | Exited0 out =>
      exists mt, exec version_re out = Some mt
                 /\ r = passed_result i (group 2 mt)
  | ExecThrew out err =>
      let error := ChildProcessError out err in
      exists mt p e,
        exec version_re (captured_stdout error) = Some mt
        /\ count is_period (group 2 mt) = S p
        /\ count is_failure_glyph (group 2 mt) = S e
        /\ r = failed_result i error (captured_stdout error) (S p) (S e)
  end.
Proof.
  destruct o as [out|out err]; intro H.
  - rewrite run_exited0 in H.
    destruct (exec version_re out) as [mt|]; [|discriminate].
    exists mt. split; [reflexivity|]. cbn in H. congruence.
  - rewrite run_threw, run_failed_spec in H. cbv zeta.
    destruct (exec version_re _) as [mt|]; [|discriminate].
    destruct (count is_period (group 2 mt)) as [|p] eqn:Ep; [discriminate|].
    destruct (count is_failure_glyph (group 2 mt)) as [|e] eqn:Ee;
      [discriminate|].
    exists mt, p, e. repeat split; auto. cbn in H. congruence.
Qed.

(** C5 (as the code has it).  No clamp is applied to the score.  When the
    score ceiling is not negative, the score of a report lies between 0 and
    the ceiling for every run that exits with status 0 (the score is the
    ceiling) and for every run without partial credit (the score of a
    failing run is 0). *)
Theorem score_within_ceiling_without_partial_credit i o c r :
  (0 <=? maxScore i)%float = true ->
  partialCredit i = false \/ (exists out, o = Exited0 out) ->
  run i o [] = (c, [Payload r]) ->
  exists a,
    reported_score r = Some a
    /\ (0 <=? a)%float = true /\ (a <=? maxScore i)%float = true.
Proof.
  intros Hmax Hcase Hrun. apply run_report in Hrun.
  destruct o as [out|out err].
  - destruct Hrun as (mt & _ & ->). exists (maxScore i).
    rewrite passed_score. repeat split; auto using leb_refl_of_nonneg.
  - destruct Hcase as [Hpc|[out' Hout]]; [|discriminate].
    destruct Hrun as (mt & p & e & _ & _ & _ & ->). exists 0%float.
    rewrite failed_score. unfold awarded. rewrite Hpc. repeat split; auto.
Qed.

Lemma score_within_ceiling_witness :
  exists a,
    reported_score
      (failed_result (sample_inputs false 10)
         (ChildProcessError (Some two_of_five_failed) None)
         (trim two_of_five_failed) 3 2) = Some a
    /\ (0 <=? a)%float = true /\ (a <=? 10)%float = true.
Proof.
  apply (@score_within_ceiling_without_partial_credit (sample_inputs false 10)
           (ExecThrew (Some two_of_five_failed) None) (Normal (Some false))).
  - reflexivity.
  - left. reflexivity.
  - vm_compute. reflexivity.
Defined.

(** C5, as stated, fails: with partial credit and a ceiling of 10, the run
    of one test with two failures is given the score -10. *)
Lemma score_below_zero :
  exists r,
    run (sample_inputs true 10) (ExecThrew (Some one_test_two_failures) None) []
    = (Normal (Some false), [Payload r])
    /\ reported_score r = Some (-10)%float
    /\ (-10 <? 0)%float = true.
Proof.
  eexists. split; [vm_compute; reflexivity|]. split; reflexivity.
Qed.



(** * The claim about the payload *)

(** C10.  Whatever the configuration and the outcomes of the setup, build
    and test commands, every payload the script gives to the sink has
    version 1 and exactly one test entry; there is at most one payload. *)
Theorem every_payload_has_version_1_and_one_test i setup_o build_o run_o :
  Forall well_versioned (snd (main i setup_o build_o run_o []))
  /\ length (snd (main i setup_o build_o run_o [])) <= 1.
Proof.
  assert (Hrun : Forall well_versioned (snd (run i run_o []))
                 /\ length (snd (run i run_o [])) <= 1).
  { destruct run_o as [out|out err].
    - rewrite run_exited0. destruct (exec version_re out); cbn.
      + split; [repeat constructor|lia].
      + split; [constructor|lia].
    - rewrite run_threw, run_failed_spec.
      destruct (exec version_re _) as [mt|]; cbn; [|split; [constructor|lia]].
      destruct (count is_period (group 2 mt)); cbn;
        [split; [constructor|lia]|].
      destruct (count is_failure_glyph (group 2 mt)); cbn;
        [split; [constructor|lia]|].
      split; [repeat constructor|lia]. }
  assert (Hbuild :
            Forall well_versioned
              (snd ((built <- build i build_o ;;
                     if built : bool then _ <- run i run_o ;; ret tt
                     else ret tt)%action []))
            /\ length (snd ((built <- build i build_o ;;
                     if built : bool then _ <- run i run_o ;; ret tt
                     else ret tt)%action [])) <= 1).
  { destruct build_o as [out|out err]; cbn.
    - unfold bind. destruct (run i run_o []) as [[b|e] k]; exact Hrun.
    - split; [repeat constructor|lia]. }
  assert (Hs : setup i setup_o [] = (Normal true, [])
               \/ (exists r, setup i setup_o [] = (Normal false, [Payload r])
                             /\ well_versioned (Payload r))
               \/ exists e, setup i setup_o [] = (Throw e, [])).
  { unfold setup. destruct (setupCommand i) as [|ch tl]; [now left|].
    destruct setup_o as [rs|e]; [|right; right; now exists e].
    cbv beta iota delta [bind spawnSync ret].
    destruct (sp_error rs) as [msg|]; [|now left].
    right. left. eexists. split; [reflexivity|]. split; reflexivity. }
  assert (Hm : main i setup_o build_o run_o []
               = match setup i setup_o [] with
                 | (Normal true, k1) =>
                     (built <- build i build_o ;;
                      if built : bool then _ <- run i run_o ;; ret tt
                      else ret tt)%action k1
                 | (Normal false, k1) => (Normal tt, k1)
                 | (Throw e, k1) => (Throw e, k1)
                 end).
  { unfold main. unfold bind at 1.
    destruct (setup i setup_o []) as [[[|]|e] k1]; reflexivity. }
  rewrite Hm. destruct Hs as [H|[(r & H & Hw)|(e & H)]]; rewrite H.
  - exact Hbuild.
  - cbn. split; [repeat constructor; apply Hw|lia].
  - cbn. split; [constructor|lia].
Qed.

(** The four paths that reach [core.setOutput] each emit one payload. *)
Example setup_failure_emits :
  length (snd (main (Inputs (js "FooTest") [js "FooTest"] (js "./prepare.sh")
                       300000%float 10%float (js "lib") false (js "javac")
                       (js "java"))
                 (SpawnReturned
                    (SpawnResult (Some (js "spawnSync ./prepare.sh ENOENT"))
                       None None))
                 (Exited0 []) (Exited0 no_tests_run) [])) = 1.
Proof. reflexivity. Qed.

Example build_failure_emits :
  length (snd (main (sample_inputs false 10)
                 (SpawnReturned (SpawnResult None None None))
                 (ExecThrew (Some []) (Some (js "FooTest.java:3: error")))
                 (Exited0 no_tests_run) [])) = 1.
Proof. reflexivity. Qed.

Example passing_run_emits :
  length (snd (main (sample_inputs false 10)
                 (SpawnReturned (SpawnResult None None None))
                 (Exited0 []) (Exited0 no_tests_run) [])) = 1.
Proof. vm_compute. reflexivity. Qed.

Example failing_run_emits :
  length (snd (main (sample_inputs false 10)
                 (SpawnReturned (SpawnResult None None None))
                 (Exited0 [])
                 (ExecThrew (Some two_of_five_failed) None) [])) = 1.
Proof. vm_compute. reflexivity. Qed.

(** * The claims about the classifier *)

Section ClassifierFacts.


Lemma pstar_chars cls p q :
  pstar cls p q ->
  exists t, snd p = t ++ snd q /\ Forall (fun c => cls c = true) t.
Proof.
  induction 1 as [p|pv ch tl q Hcls _ (t & Ht & Hall)].
  - exists []. auto.
  - exists (ch :: t). simpl in *. rewrite Ht. auto.
Qed.

Lemma psteps_suffix r :
  forall p q, psteps r p q -> exists t, snd p = t ++ snd q.
Proof.
  induction r as [|cls|r1 IH1 r2 IH2|r1 IH1 r2 IH2|greedy cls|i r1 IH1|ml|ml];
    intros p q H; simpl in H.
  - subst. now exists [].
  - destruct H as (ch & Hs & _). now exists [ch].
  - destruct H as (mid & H1 & H2).
    destruct (IH1 _ _ H1) as (t1 & E1). destruct (IH2 _ _ H2) as (t2 & E2).
    exists (t1 ++ t2). now rewrite E1, E2, app_assoc.
  - destruct H as [H|H]; eauto.
  - destruct (pstar_chars H) as (t & Ht & _). now exists t.
  - eauto.
  - destruct H as [-> _]. now exists [].
  - destruct H as [-> _]. now exists [].
Qed.

Lemma taken_app x y t : rest x = t ++ rest y -> taken x y = t.
Proof.
  intro H. unfold taken. rewrite H, length_app.
  replace (length t + length (rest y) - length (rest y)) with (length t + 0)
    by lia.
  rewrite firstn_app_2. cbn [firstn]. apply app_nil_r.
Qed.

(** The captures of a successful run satisfy what the groups of the
    pattern guarantee. *)
Lemma m_caps Q r :
  groups_ok Q r ->
  forall x (c : cont) z,
    m r x c = Some z ->
    exists y, psteps r (pos_of x) (pos_of y) /\ c y = Some z
              /\ (caps_ok Q (caps x) -> caps_ok Q (caps y)).
Proof.
  induction r as [|cls|r1 IH1 r2 IH2|r1 IH1 r2 IH2|greedy cls|i r1 IH1|ml|ml];
    intros Hok x c z H.
  - exists x. simpl in *. auto.
  - destruct (m_sound _ _ _ H) as (y & Hy & Hc). simpl in H.
    destruct x as [pv s cs]; simpl in *. destruct s as [|ch tl]; [discriminate|].
    destruct (cls ch); [|discriminate].
    exists (MState (Some ch) tl cs). simpl. split; [|auto].
    destruct Hy as (ch' & Hs & Hcls & _). exists ch. inversion Hs; subst. auto.
  - destruct Hok as [Hok1 Hok2]. simpl in H.
    destruct (IH1 Hok1 _ _ _ H) as (y1 & H1 & Hk & Hc1).
    destruct (IH2 Hok2 _ _ _ Hk) as (y2 & H2 & Hc & Hc2).
    exists y2. split; [exists (pos_of y1); auto|auto].
  - destruct Hok as [Hok1 Hok2]. simpl in H. destruct (m r1 x c) eqn:E1.
    + inversion H; subst. destruct (IH1 Hok1 _ _ _ E1) as (y & Hy & Hc & Hcs).
      exists y. simpl. auto.
    + destruct (IH2 Hok2 _ _ _ H) as (y & Hy & Hc & Hcs).
      exists y. simpl. auto.
  - simpl in H. destruct (star_sound _ _ _ _ _ _ H) as (y & Hy & Hcs & Hc).
    exists y. simpl. rewrite Hcs. auto.
  - destruct Hok as [Hok1 HQ]. simpl in H.
    destruct (IH1 Hok1 _ _ _ H) as (y & Hy & Hc & Hcs).
    exists (MState (prev y) (rest y) ((i, taken x y) :: caps y)).
    split; [exact Hy|]. split; [exact Hc|].
    intro Hx. constructor; [|exact (Hcs Hx)]. cbn [fst snd].
    destruct (psteps_suffix _ _ _ Hy) as (t & Ht).
    rewrite (@taken_app x y t Ht). exact (HQ _ _ _ Hy Ht).
  - destruct (m_sound _ _ _ H) as (y & Hy & Hc). destruct Hy as [Hy _].
    exists x. simpl. split; [|split; auto].
    + simpl in H. destruct (prev x) as [p0|]; [|auto].
      destruct (ml && isLineTerminator p0); [auto|discriminate].
    + simpl in H. destruct (prev x) as [p0|]; [|auto].
      destruct (ml && isLineTerminator p0); [auto|discriminate].
  - exists x. simpl in *. destruct (rest x) as [|ch tl].
    + auto.
    + destruct (ml && isLineTerminator ch); [auto|discriminate].
Qed.

Lemma groups_ok_seqs Q l :
  Forall (groups_ok Q) l -> groups_ok Q (seqs l).
Proof.
  induction 1 as [|r l Hr Hl IH]; [exact I|].
  destruct l as [|r' l']; [exact Hr|]. split; [exact Hr|exact IH].
Qed.

Lemma groups_ok_lit Q s : groups_ok Q (lit s).
Proof.
  unfold lit. apply groups_ok_seqs. induction (js s); constructor; auto.
  exact I.
Qed.

Lemma star_group_one_line greedy (p q : pos) t :
  psteps (Star greedy dot) p q -> snd p = t ++ snd q -> one_line t.
Proof.
  intros H Ht. destruct (pstar_chars H) as (t' & Ht' & Hall).
  rewrite Ht in Ht'. apply app_inv_tail in Ht'. now subst.
Qed.

Lemma expected_but_was_groups i j :
  groups_ok values_one_line (expected_but_was i j).
Proof.
  unfold expected_but_was. apply groups_ok_seqs.
  repeat (apply Forall_cons || apply Forall_nil);
    first [ apply groups_ok_lit | exact I
          | split; [exact I|];
            intros p q t H Ht; right; exact (@star_group_one_line _ _ _ _ H Ht) ].
Qed.

Lemma assertion_groups : groups_ok values_one_line assertion_re.
Proof.
  unfold assertion_re. apply groups_ok_seqs.
  repeat (apply Forall_cons || apply Forall_nil).
  - split; [split; apply groups_ok_lit|]. intros; now left.
  - apply groups_ok_lit.
  - split; [exact I|].
    intros p q t H Ht; right; exact (@star_group_one_line _ _ _ _ H Ht).
  - exact (expected_but_was_groups 3 4).
Qed.

Lemma lookup_In i cs s : lookup i cs = Some s -> In (i, s) cs.
Proof.
  induction cs as [|[j t] cs IH]; simpl; [discriminate|].
  destruct (Nat.eqb_spec i j).
  - intro H. inversion H; subst. now left.
  - intro H. right. auto.
Qed.

(** Groups 2, 3 and 4 of a match of the pattern of line 266 hold no line
    terminator. *)
Lemma assertion_values_one_line failure mt i :
  In mt (matchAll assertion_re failure) ->
  i <> 1 -> one_line (group i mt).
Proof.
  intros Hin Hi. unfold matchAll in Hin.
  destruct (scan_In _ _ _ _ _ _ Hin) as (p & y & _ & Ha & Hcs).
  unfold attempt in Ha.
  destruct (@m_caps _ _ assertion_groups _ _ _ Ha) as (y0 & _ & Hy0 & Hok).
  inversion Hy0; subst y0. specialize (Hok (Forall_nil _)).
  unfold group. rewrite Hcs. destruct (lookup i (caps y)) as [s|] eqn:E.
  - apply lookup_In in E. unfold caps_ok in Hok.
    rewrite Forall_forall in Hok. destruct (Hok _ E) as [H1|H1]; [|exact H1].
    cbn in H1. contradiction.
  - constructor.
Qed.

Lemma one_line_trimStart s : one_line s -> one_line (trimStart s).
Proof.
  induction 1 as [|c l Hc Hl IH]; simpl; [constructor|].
  destruct (isWhiteSpace c); [exact IH|now constructor].
Qed.

Lemma one_line_trim s : one_line s -> one_line (trim s).
Proof.
  intro H. unfold trim, trimEnd, one_line.
  apply Forall_rev. apply one_line_trimStart. apply Forall_rev.
  now apply one_line_trimStart.
Qed.

Lemma replace_loop_one_line rep s :
  one_line s -> forall pv, replace_loop linebreak_re rep pv s 0 = s.
Proof.
  induction 1 as [|c l Hc Hl IH]; intro pv; [reflexivity|].
  cbn [replace_loop].
  assert (Ha : attempt linebreak_re pv (c :: l) = None).
  { unfold dot, isLineTerminator in Hc. unfold attempt, linebreak_re, chr.
    cbn [m rest]. unfold char_eqb, CR, LF.
    rewrite (N.eqb_sym 13 c), (N.eqb_sym 10 c).
    destruct (N.eqb c 10), (N.eqb c 13); try discriminate. reflexivity. }
  rewrite Ha. now rewrite IH.
Qed.

(** Line 271 replaces no line break in a value: there is none. *)
Lemma br_one_line s : one_line s -> br s = s.
Proof. intro H. unfold br, replaceAll. now apply replace_loop_one_line. Qed.

Lemma structured_message_spec mt :
  structured_message mt = message_or_default (group 2 mt).
Proof.
  unfold structured_message, message_or_default.
  now destruct (trim (group 2 mt)).
Qed.

End ClassifierFacts.




(** The rows pushed to the console table under the test of line 264 alone,
    whether the pattern of line 266 matches or not. *)
Lemma console_rows failure :
  match_g comparison_re failure <> None ->
  fst (classify failure)
  = List.map
      (fun mt =>
         Cells (message_or_default (group 2 mt)) (group 3 mt) (group 4 mt))
      (matchAll assertion_re failure).
Proof.
  intro H. unfold classify. destruct (match_g comparison_re failure);
    [|contradiction].
  cbn [iterator_truthy fst]. apply map_ext. intro mt. unfold structured_row.
  now rewrite structured_message_spec.
Qed.

Example console_row_untrimmed :
  classify (js "java.lang.AssertionError: expected:< 1 > but was:<2>")
  = ([Cells (js "Test failed") (js " 1 ") (js "2")],
     js "<tr><td>Test failed</td><td>1</td><td>2</td></tr>").
Proof. vm_compute. reflexivity. Qed.

(** ** The first line of a block *)

Section FirstLine.

Lemma lines_cons cur c s :
  lines cur (c :: s)
  = if char_eqb LF c then rev cur :: lines [] s else lines (c :: cur) s.
Proof.
  unfold lines. cbn [split_loop strip_prefix length pred].
  now destruct (char_eqb LF c).
Qed.

Lemma lines_shape s :
  forall cur, lines cur s = (rev cur ++ until_lf s) :: tl (lines [] s).
Proof.
  induction s as [|c s IH]; intro cur.
  - unfold lines. simpl. now rewrite app_nil_r.
  - rewrite !lines_cons. cbn [until_lf]. destruct (char_eqb LF c).
    + cbn [rev tl]. now rewrite app_nil_r.
    + rewrite (IH (c :: cur)), (IH [c]). cbn [rev tl app].
      now rewrite <- app_assoc.
Qed.

Lemma split_lf_shape s : split [LF] s = until_lf s :: tl (split [LF] s).
Proof. change (split [LF] s) with (lines [] s). apply lines_shape. Qed.

Lemma split_lf_cons c s :
  split [LF] (c :: s)
  = if char_eqb LF c then [] :: split [LF] s
    else (c :: until_lf s) :: tl (split [LF] s).
Proof.
  change (split [LF] (c :: s)) with (lines [] (c :: s)).
  rewrite lines_cons. destruct (char_eqb LF c); [reflexivity|].
  now rewrite lines_shape.
Qed.

Lemma lf_is_white c : char_eqb LF c = true -> isWhiteSpace c = true.
Proof.
  unfold char_eqb, LF. intro H. apply N.eqb_eq in H. now subst.
Qed.

Lemma trimStart_white_app w s :
  blank w = true -> trimStart (w ++ s) = trimStart s.
Proof.
  induction w as [|c w IH]; [reflexivity|]. cbn [blank forallb app trimStart].
  intro H. apply andb_prop in H as [Hc Hw]. rewrite Hc. now apply IH.
Qed.

Lemma blank_rev w : blank (rev w) = blank w.
Proof.
  unfold blank. induction w as [|c w IH]; [reflexivity|].
  cbn [rev forallb]. rewrite forallb_app, IH. cbn [forallb].
  now rewrite andb_true_r, andb_comm.
Qed.

Lemma trimEnd_app_white s w : blank w = true -> trimEnd (s ++ w) = trimEnd s.
Proof.
  intro H. unfold trimEnd. rewrite rev_app_distr.
  rewrite trimStart_white_app; [reflexivity|]. now rewrite blank_rev.
Qed.

Lemma trimStart_app s w :
  blank w = true ->
  exists w', blank w' = true /\ trimStart (s ++ w) = trimStart s ++ w'.
Proof.
  intro H. induction s as [|c s (w' & Hw' & IH)].
  - exists []. split; [reflexivity|].
    cbn [app]. rewrite <- (app_nil_r w).
    now rewrite trimStart_white_app.
  - cbn [app trimStart]. destruct (isWhiteSpace c).
    + exists w'. auto.
    + exists w. auto.
Qed.

(** Trailing white space does not change the trimmed text. *)
Lemma trim_app_white s w : blank w = true -> trim (s ++ w) = trim s.
Proof.
  intro H. unfold trim. destruct (@trimStart_app s w H) as (w' & Hw' & ->).
  now apply trimEnd_app_white.
Qed.

Lemma trim_cons_white c s : isWhiteSpace c = true -> trim (c :: s) = trim s.
Proof. intro H. unfold trim. cbn [trimStart]. now rewrite H. Qed.

Lemma trimStart_decomp s :
  exists w, blank w = true /\ s = w ++ trimStart s.
Proof.
  induction s as [|c s (w & Hw & IH)]; [now exists []|].
  cbn [trimStart]. destruct (isWhiteSpace c) eqn:E.
  - exists (c :: w). cbn [blank forallb app]. rewrite E.
    split; [exact Hw|now rewrite <- IH].
  - now exists [].
Qed.

Lemma trimEnd_decomp s : exists w, blank w = true /\ s = trimEnd s ++ w.
Proof.
  destruct (trimStart_decomp (rev s)) as (w & Hw & E).
  exists (rev w). rewrite blank_rev. split; [exact Hw|].
  unfold trimEnd. rewrite <- rev_app_distr, <- E. now rewrite rev_involutive.
Qed.

Lemma until_lf_app s w :
  blank w = true ->
  exists w', blank w' = true
             /\ (until_lf (s ++ w) = until_lf s ++ w'
                 \/ until_lf (s ++ w) = until_lf s).
Proof.
  intro H. induction s as [|c s (w' & Hw' & IH)].
  - cbn [app until_lf]. clear -H. induction w as [|c w IHw].
    + exists []. auto.
    + cbn [blank forallb] in H. apply andb_prop in H as [Hc Hw].
      cbn [until_lf]. destruct (char_eqb LF c).
      * exists []. auto.
      * destruct (IHw Hw) as (w' & Hw' & [E|E]); cbn [app] in E.
        -- exists (c :: w'). cbn [blank forallb]. rewrite Hc.
           split; [exact Hw'|]. left. now rewrite E.
        -- exists [c]. cbn [blank forallb]. rewrite Hc.
           split; [reflexivity|]. left. now rewrite E.
  - cbn [app until_lf]. destruct (char_eqb LF c).
    + exists []. auto.
    + exists w'. split; [exact Hw'|].
      destruct IH as [E|E]; rewrite E; auto.
Qed.

(** The first non-blank line is found after the leading white space. *)
Lemma first_nonblank_trimStart s :
  trim (first_nonblank_line s) = trim (first_nonblank_line (trimStart s)).
Proof.
  unfold first_nonblank_line. induction s as [|c s IH]; [reflexivity|].
  cbn [trimStart]. destruct (isWhiteSpace c) eqn:Ec; [|reflexivity].
  rewrite <- IH. rewrite split_lf_cons. destruct (char_eqb LF c).
  - reflexivity.
  - rewrite (split_lf_shape s) at 2. cbn [find blank forallb]. rewrite Ec.
    cbn [andb]. fold (blank (until_lf s)).
    destruct (blank (until_lf s)); cbn [negb]; [reflexivity|].
    now apply trim_cons_white.
Qed.

Lemma first_nonblank_head c s :
  isWhiteSpace c = false ->
  first_nonblank_line (c :: s) = until_lf (c :: s).
Proof.
  intro Hc. unfold first_nonblank_line. rewrite split_lf_shape.
  cbn [find until_lf]. destruct (char_eqb LF c) eqn:E.
  - apply lf_is_white in E. congruence.
  - cbn [blank forallb]. now rewrite Hc.
Qed.

(** Line 284 reads the first non-blank line of the block, trimmed. *)
Lemma first_line_spec failure :
  first_line failure = trim (first_nonblank_line failure).
Proof.
  unfold first_line. rewrite first_nonblank_trimStart.
  unfold trim at 2. set (t := trimStart failure).
  rewrite (split_lf_shape (trimEnd t)). cbn [hd].
  destruct (trimEnd_decomp t) as (w & Hw & Et).
  destruct (@until_lf_app (trimEnd t) w Hw) as (w' & Hw' & Hu).
  assert (Ht : trim (until_lf t) = trim (until_lf (trimEnd t))).
  { rewrite Et at 1. destruct Hu as [->| ->]; [|reflexivity].
    now apply trim_app_white. }
  rewrite <- Ht. subst t. destruct failure as [|c s]; [reflexivity|].
  cbn [trimStart]. destruct (isWhiteSpace c) eqn:Ec.
  - destruct (trimStart s) as [|c' s'] eqn:Es; [reflexivity|].
    rewrite first_nonblank_head; [reflexivity|].
    clear -Es. induction s as [|a s IH]; [discriminate|].
    cbn [trimStart] in Es. destruct (isWhiteSpace a) eqn:Ea; [auto|].
    inversion Es; subst. exact Ea.
  - now rewrite first_nonblank_head.
Qed.

End FirstLine.

(** ** The unstructured rows *)

Lemma trimStart_idem s : trimStart (trimStart s) = trimStart s.
Proof.
  induction s as [|c s IH]; [reflexivity|]. cbn [trimStart].
  destruct (isWhiteSpace c) eqn:E; [exact IH|]. cbn [trimStart]. now rewrite E.
Qed.

Lemma trimEnd_idem s : trimEnd (trimEnd s) = trimEnd s.
Proof. unfold trimEnd. now rewrite rev_involutive, trimStart_idem. Qed.

Lemma trimStart_trimEnd s :
  trimStart (trimEnd (trimStart s)) = trimEnd (trimStart s).
Proof.
  destruct (trimEnd_decomp (trimStart s)) as (w & _ & E).
  destruct (trimEnd (trimStart s)) as [|c u] eqn:Eu; [reflexivity|].
  cbn [trimStart]. destruct (isWhiteSpace c) eqn:Ec; [|reflexivity].
  exfalso. pose proof (trimStart_idem s) as Hi. rewrite E in Hi.
  cbn [app trimStart] in Hi. rewrite Ec in Hi.
  assert (Hlen : length (trimStart (u ++ w)) <= length (u ++ w)).
  { clear. induction (u ++ w) as [|a l IH]; [auto|]. cbn [trimStart].
    destruct (isWhiteSpace a); cbn [length]; lia. }
  rewrite Hi in Hlen. cbn [length] in Hlen. lia.
Qed.

(** Trimming twice is trimming once. *)
Lemma trim_idem s : trim (trim s) = trim s.
Proof. unfold trim. now rewrite trimStart_trimEnd, trimEnd_idem. Qed.

Lemma other_message_spec failure :
  other_message failure
  = trim (replace timed_out_re []
            (trim (replace java_lang_re []
                     (trim (first_nonblank_line failure))))).
Proof.
  unfold other_message, reReplace. cbn [fold_left].
  now rewrite first_line_spec.
Qed.

(** C8 (as the code has it).  For every failure block in which the pattern
    of line 264 (expected:<E> but was:<A>) finds no match, the classifier
    produces exactly one unstructured row.  Its message is the first
    non-blank line of the block, trimmed, from which the first match of
    java.lang. followed by any text and a colon is removed, then the first
    occurrence of org.junit.runners.model.TestTimedOutException followed by
    a colon, the text being trimmed after each removal; a line in which
    neither pattern matches is the message as it is. *)
Theorem unstructured_block_row failure :
  match_g comparison_re failure = None ->
  let line := trim (first_nonblank_line failure) in
  let msg :=
    trim (replace timed_out_re [] (trim (replace java_lang_re [] line))) in
  classify failure = ([Spanned msg], spanned_html msg)
  /\ (exec java_lang_re line = None -> exec timed_out_re line = None ->
      msg = line).
Proof.
  intros Hg line msg. split.
  - unfold classify. rewrite Hg. subst msg line.
    now rewrite other_message_spec.
  - intros Hj Ht. subst msg. unfold replace at 2. rewrite Hj.
    assert (Hl : trim line = line) by (subst line; apply trim_idem).
    rewrite Hl. unfold replace. rewrite Ht. exact Hl.
Qed.

Lemma unstructured_block_witness :
  classify no_such_element_block
  = ([Spanned (js "java.util.NoSuchElementException: boom")],
     spanned_html (js "java.util.NoSuchElementException: boom")).
Proof.
  destruct (@unstructured_block_row no_such_element_block) as [H _].
  - vm_compute. reflexivity.
  - rewrite H. vm_compute. reflexivity.
Defined.

(** C8, as stated, fails: the class-name prefix of this block, a dotted
    identifier ending in a colon, stays in the message. *)
Lemma other_class_prefix_is_kept :
  match_g comparison_re no_such_element_block = None
  /\ fst (classify no_such_element_block)
     = [Spanned (js "java.util.NoSuchElementException: boom")]
  /\ js "java.util.NoSuchElementException: boom" <> js "boom".
Proof.
  split; [vm_compute; reflexivity|]. split; [vm_compute; reflexivity|].
  discriminate.
Qed.

(** The removal of line 287 is greedy and not anchored: it runs to the last
    colon of the line and starts wherever java.lang. occurs. *)
Example java_lang_removed_to_last_colon :
  other_message ([LF] ++ js "java.lang.IllegalStateException: close: failed")
  = js "failed".
Proof. vm_compute. reflexivity. Qed.

Example java_lang_removed_inside_line :
  other_message (js "Caused by java.lang.Error: boom") = js "Caused by  boom".
Proof. vm_compute. reflexivity. Qed.

Example timed_out_wrapper_removed :
  other_message
    ([LF] ++ js "org.junit.runners.model.TestTimedOutException: test timed out after 100 milliseconds")
  = js "test timed out after 100 milliseconds".
Proof. vm_compute. reflexivity. Qed.

(** A block in which the pattern of line 264 matches and the pattern of
    line 266 does not contributes no row at all: the iterator of [matchAll]
    is truthy and the branch of lines 274 to 278 is never taken. *)
Example comparison_without_assertion_kind :
  classify ([LF] ++ js "java.lang.Exception: expected:<1> but was:<2>")
  = ([], []).
Proof. vm_compute. reflexivity. Qed.

(** * The claim about the configuration *)

Lemma split_loop_no_separator sep s :
  forall cur, includes sep s = false ->
              split_loop sep s 0 cur = [rev cur ++ s].
Proof.
  induction s as [|c s IH]; intros cur H.
  - cbn. now rewrite app_nil_r.
  - cbn [includes] in H. cbn [split_loop].
    destruct (strip_prefix sep (c :: s)); [discriminate|].
    rewrite IH by exact H. cbn [rev]. now rewrite <- app_assoc.
Qed.

(** A value that does not contain the seven code units of the separator is
    one test class, commas and blanks included. *)
Lemma split_test_class_whole v :
  includes test_class_separator v = false -> split_test_class v = [v].
Proof.
  intro H. unfold split_test_class, split, test_class_separator.
  cbn [js List.map list_ascii_of_string].
  exact (split_loop_no_separator _ v [] H).
Qed.

Lemma bind_getInput_optional {A} raw name (f : jsstring -> action A) k :
  (x <- getInput raw name false ;; f x)%action k = f (trim raw) k.
Proof. unfold bind. now destruct raw. Qed.

Lemma bind_getInput_supplied {A} a n name required
  (f : jsstring -> action A) k :
  (x <- getInput (a :: n) name required ;; f x)%action k
  = f (trim (a :: n)) k.
Proof. unfold bind. now destruct required. Qed.

(** [getInputs] throws for the first required input that is empty, and
    returns the object made of the trimmed values otherwise. *)
Lemma getInputs_spec parseFloat cfg k :
  getInputs parseFloat cfg k
  = match cfg_test_name cfg, cfg_test_class cfg with
    | [], _ => (Throw (InputError (js "test-name")), k)
    | _ :: _, [] => (Throw (InputError (js "test-class")), k)
    | _ :: _, _ :: _ => (Normal (inputs_read parseFloat cfg), k)
    end.
Proof.
  unfold getInputs, inputs_read.
  destruct (cfg_test_name cfg) as [|a n]; [reflexivity|].
  destruct (cfg_test_class cfg) as [|b c]; [reflexivity|].
  rewrite !bind_getInput_supplied.
  repeat (rewrite bind_getInput_optional; cbv beta zeta).
  destruct (trim (cfg_timeout cfg)), (trim (cfg_max_score cfg)); reflexivity.
Qed.

(** C9 (what the code does).  The value FooTest, BarTest of the input
    test-class is not split on its comma: whenever the test name is
    supplied, [getInputs] returns one test class identifier, the value
    itself. *)
Theorem test_class_not_split_on_comma parseFloat cfg k :
  cfg_test_class cfg = js "FooTest, BarTest" ->
  cfg_test_name cfg <> [] ->
  exists i,
    getInputs parseFloat cfg k = (Normal i, k)
    /\ testClasses i = [js "FooTest, BarTest"].
Proof.
  intros H Hname. rewrite getInputs_spec.
  destruct (cfg_test_name cfg) as [|a n] eqn:En; [contradiction|].
  rewrite H. cbn [js List.map list_ascii_of_string].
  eexists. split; [reflexivity|].
  unfold inputs_read. cbn [testClasses]. rewrite H.
  apply split_test_class_whole. vm_compute. reflexivity.
Qed.

Lemma test_class_not_split_witness :
  exists i,
    getInputs (fun _ => 10%float)
      (Config (js "Unit tests") (js "FooTest, BarTest") [] [] (js "10") []
         (js "true")) []
    = (Normal i, [])
    /\ testClasses i = [js "FooTest, BarTest"].
Proof.
  apply (@test_class_not_split_on_comma (fun _ => 10%float)
           (Config (js "Unit tests") (js "FooTest, BarTest") [] [] (js "10")
              [] (js "true")) []).
  - reflexivity.
  - discriminate.
Defined.

(** * Further properties of the script *)

(** ** The paths of [main] *)

Section Paths.

Variable i : inputs.

Lemma setup_spec o k :
  setup i o k
  = match setupCommand i, o with
    | [], _ => (Normal true, k)
    | _ :: _, SpawnThrew e => (Throw e, k)
    | _ :: _, SpawnReturned rs =>
        match sp_error rs with
        | Some msg => (Normal false, k ++ [Payload (setup_result i msg rs)])
        | None => (Normal true, k)
        end
    end.
Proof.
  unfold setup, setup_result. destruct (setupCommand i); [reflexivity|].
  destruct o as [rs|e]; [|reflexivity].
  cbv beta iota delta [bind spawnSync ret].
  destruct (sp_error rs); reflexivity.
Qed.

Lemma build_spec o k :
  build i o k
  = match o with
    | Exited0 _ => (Normal true, k)
    | ExecThrew out err => (Normal false, k ++ [Payload (build_result i out err)])
    end.
Proof. destruct o; reflexivity. Qed.

Lemma run_spec o k :
  run i o k
  = match o with
    | Exited0 out =>
        match exec version_re out with
        | Some mt => (Normal None, k ++ [Payload (passed_result i (group 2 mt))])
        | None => (Throw TypeError, k)
        end
    | ExecThrew out err =>
        let error := ChildProcessError out err in
        match exec version_re (captured_stdout error) with
        | Some mt =>
            match count is_period (group 2 mt),
                  count is_failure_glyph (group 2 mt) with
            | S p, S e =>
                (Normal (Some false),
                 k ++ [Payload (failed_result i error (captured_stdout error)
                                  (S p) (S e))])
            | _, _ => (Throw TypeError, k)
            end
        | None => (Throw TypeError, k)
        end
    end.
Proof.
  destruct o as [out|out err].
  - apply run_exited0.
  - rewrite run_threw, run_failed_spec. cbv zeta.
    destruct (exec version_re _) as [mt|]; [|reflexivity].
    destruct (count is_period (group 2 mt)); [reflexivity|].
    destruct (count is_failure_glyph (group 2 mt)); reflexivity.
Qed.

Lemma main_spec o build_o run_o k :
  main i o build_o run_o k
  = match setup i o k with
    | (Normal true, k1) =>
        match build i build_o k1 with
        | (Normal true, k2) =>
            match run i run_o k2 with
            | (Normal _, k3) => (Normal tt, k3)
            | (Throw e, k3) => (Throw e, k3)
            end
        | (Normal false, k2) => (Normal tt, k2)
        | (Throw e, k2) => (Throw e, k2)
        end
    | (Normal false, k1) => (Normal tt, k1)
    | (Throw e, k1) => (Throw e, k1)
    end.
Proof.
  unfold main, bind. destruct (setup i o k) as [[[|]|e] k1]; try reflexivity.
  destruct (build i build_o k1) as [[[|]|e] k2]; reflexivity.
Qed.

(** The script after [getInputs], path by path. *)
Lemma main_cases o build_o run_o k :
  let after_setup :=
    match build_o with
    | ExecThrew out err => (Normal tt, k ++ [Payload (build_result i out err)])
    | Exited0 _ =>
        match run i run_o k with
        | (Normal _, k3) => (Normal tt, k3)
        | (Throw e, k3) => (Throw e, k3)
        end
    end in
  main i o build_o run_o k
  = match setupCommand i, o with
    | [], _ => after_setup
    | _ :: _, SpawnThrew e => (Throw e, k)
    | _ :: _, SpawnReturned rs =>
        match sp_error rs with
        | Some msg => (Normal tt, k ++ [Payload (setup_result i msg rs)])
        | None => after_setup
        end
    end.
Proof.
  intro after_setup. rewrite main_spec, setup_spec.
  assert (Hb : match build i build_o k with
               | (Normal true, k2) =>
                   match run i run_o k2 with
                   | (Normal _, k3) => (Normal tt, k3)
                   | (Throw e, k3) => (Throw e, k3)
                   end
               | (Normal false, k2) => (Normal tt, k2)
               | (Throw e, k2) => (Throw e, k2)
               end = after_setup).
  { rewrite build_spec. subst after_setup. now destruct build_o. }
  destruct (setupCommand i); [exact Hb|].
  destruct o as [rs|e]; [|reflexivity].
  destruct (sp_error rs); [reflexivity|exact Hb].
Qed.

(** The sink after the script, path by path. *)
Lemma main_sink o build_o run_o k :
  let after_setup :=
    match build_o with
    | ExecThrew out err => k ++ [Payload (build_result i out err)]
    | Exited0 _ => snd (run i run_o k)
    end in
  snd (main i o build_o run_o k)
  = match setupCommand i, o with
    | [], _ => after_setup
    | _ :: _, SpawnThrew e => k
    | _ :: _, SpawnReturned rs =>
        match sp_error rs with
        | Some msg => k ++ [Payload (setup_result i msg rs)]
        | None => after_setup
        end
    end.
Proof.
  intro after_setup. rewrite main_cases.
  assert (Hb : snd match build_o with
                   | ExecThrew out err =>
                       (Normal tt, k ++ [Payload (build_result i out err)])
                   | Exited0 _ =>
                       match run i run_o k with
                       | (Normal _, k3) => (Normal tt, k3)
                       | (Throw e, k3) => (@Throw unit e, k3)
                       end
                   end = after_setup).
  { subst after_setup. destruct build_o; [|reflexivity].
    destruct (run i run_o k) as [[b|e] k3]; reflexivity. }
  destruct (setupCommand i); [exact Hb|].
  destruct o as [rs|e]; [|reflexivity].
  destruct (sp_error rs); [reflexivity|exact Hb].
Qed.

Lemma run_sink o k :
  length (snd (run i o k)) = length k + (if run_reports o then 1 else 0).
Proof.
  rewrite run_spec. unfold run_reports, marker_of.
  destruct o as [out|out err]; cbv zeta.
  - destruct (exec version_re out) as [mt|]; cbn [option_map snd].
    + rewrite length_app. reflexivity.
    + lia.
  - destruct (exec version_re _) as [mt|]; cbn [option_map snd]; [|lia].
    destruct (count is_period (group 2 mt)); cbn [snd Nat.leb andb]; [lia|].
    destruct (count is_failure_glyph (group 2 mt)); cbn [snd Nat.leb andb];
      [lia|].
    rewrite length_app. reflexivity.
Qed.

End Paths.

(** X1.  When the test command exits with status 0 and the version pattern
    finds no match in its output, [run] emits nothing: the [TypeError] of line
    172 enters the [catch] block, where line 225 throws it again, whatever
    the configuration. *)
Theorem passing_run_without_version_emits_nothing i out k :
  exec version_re out = None ->
  run i (Exited0 out) k = (Throw TypeError, k).
Proof. intro H. now rewrite run_spec, H. Qed.

Lemma passing_run_without_version_witness :
  run (sample_inputs false 10) (Exited0 (js "OK (2 tests)")) []
  = (Throw TypeError, []).
Proof.
  apply (@passing_run_without_version_emits_nothing (sample_inputs false 10)
           (js "OK (2 tests)") []).
  vm_compute. reflexivity.
Defined.

(** The number of payloads of the script after [getInputs]. *)
Lemma main_payload_count i o build_o run_o :
  length (snd (main i o build_o run_o []))
  = if spawn_threw i o then 0
    else if setup_failed i o || exec_failed build_o || run_reports run_o
         then 1 else 0.
Proof.
  rewrite main_sink. cbv zeta. unfold spawn_threw, setup_failed.
  assert (Hb : length (match build_o with
                       | ExecThrew out err => [] ++ [Payload (build_result i out err)]
                       | Exited0 _ => snd (run i run_o [])
                       end)
               = if exec_failed build_o || run_reports run_o then 1 else 0).
  { destruct build_o; [|reflexivity]. cbn [exec_failed orb].
    now rewrite run_sink. }
  destruct (setupCommand i); [exact Hb|].
  destruct o as [rs|e]; [|reflexivity].
  destruct (sp_error rs); [reflexivity|exact Hb].
Qed.

(** The script: [getInputs], then the script after it. *)
Lemma script_spec parseFloat cfg setup_o build_o run_o k :
  script parseFloat cfg setup_o build_o run_o k
  = match cfg_test_name cfg, cfg_test_class cfg with
    | [], _ => (Throw (InputError (js "test-name")), k)
    | _ :: _, [] => (Throw (InputError (js "test-class")), k)
    | _ :: _, _ :: _ =>
        main (inputs_read parseFloat cfg) setup_o build_o run_o k
    end.
Proof.
  unfold script. unfold bind at 1. rewrite getInputs_spec.
  destruct (cfg_test_name cfg); [reflexivity|].
  destruct (cfg_test_class cfg); reflexivity.
Qed.

(** X3.  The script gives the sink exactly one payload when the two
    required inputs are supplied, [spawnSync] does not throw, and the setup
    fails, the build fails, or the output of the test command can be
    reported on; it gives the sink no payload otherwise. *)
Theorem payload_count parseFloat cfg setup_o build_o run_o :
  length (snd (script parseFloat cfg setup_o build_o run_o []))
  = if inputs_supplied cfg then
      let i := inputs_read parseFloat cfg in
      if spawn_threw i setup_o then 0
      else if setup_failed i setup_o || exec_failed build_o
              || run_reports run_o
           then 1 else 0
    else 0.
Proof.
  rewrite script_spec. unfold inputs_supplied.
  destruct (cfg_test_name cfg); [reflexivity|].
  destruct (cfg_test_class cfg); [reflexivity|].
  apply main_payload_count.
Qed.

(** X4.  After a failure of the setup command, neither the build nor the
    tests are looked at: the script ends normally with the setup report as
    its only payload, whatever the outcomes of the other two commands. *)
Theorem setup_failure_stops_script i rs build_o run_o msg :
  setupCommand i <> [] ->
  sp_error rs = Some msg ->
  main i (SpawnReturned rs) build_o run_o []
  = (Normal tt, [Payload (setup_result i msg rs)]).
Proof.
  intros Hcmd Herr. rewrite main_cases. cbv zeta. rewrite Herr.
  destruct (setupCommand i); [contradiction|reflexivity].
Qed.

Lemma setup_failure_witness :
  main (Inputs (js "FooTest") [js "FooTest"] (js "./prepare.sh") 300000%float
          10%float (js "lib") false (js "javac") (js "java"))
    (SpawnReturned
       (SpawnResult (Some (js "spawnSync ./prepare.sh ENOENT")) None None))
    (Exited0 []) (Exited0 no_tests_run) []
  = (Normal tt,
     [Payload
        (setup_result
           (Inputs (js "FooTest") [js "FooTest"] (js "./prepare.sh")
              300000%float 10%float (js "lib") false (js "javac") (js "java"))
           (js "spawnSync ./prepare.sh ENOENT")
           (SpawnResult (Some (js "spawnSync ./prepare.sh ENOENT")) None None))]).
Proof.
  apply setup_failure_stops_script.
  - discriminate.
  - reflexivity.
Defined.

(** X5.  When [spawnSync] does not throw, the setup does not fail and the
    compiler fails, the tests are not looked at: the script ends normally
    with the build report as its only payload, whatever the outcome of the
    test command. *)
Theorem build_failure_stops_script i setup_o out err run_o :
  spawn_threw i setup_o = false ->
  setup_failed i setup_o = false ->
  main i setup_o (ExecThrew out err) run_o []
  = (Normal tt, [Payload (build_result i out err)]).
Proof.
  intros Ht Hs. rewrite main_cases. cbv zeta.
  unfold spawn_threw in Ht. unfold setup_failed in Hs.
  destruct (setupCommand i); [reflexivity|].
  destruct setup_o as [rs|e]; [|discriminate].
  destruct (sp_error rs); [discriminate|reflexivity].
Qed.

Lemma build_failure_witness :
  main (sample_inputs false 10) (SpawnReturned (SpawnResult None None None))
    (ExecThrew (Some []) (Some (js "FooTest.java:3: error: ';' expected")))
    (ExecThrew (Some two_of_five_failed) None) []
  = (Normal tt,
     [Payload (build_result (sample_inputs false 10) (Some [])
                 (Some (js "FooTest.java:3: error: ';' expected")))]).
Proof. apply build_failure_stops_script; reflexivity. Defined.

(** ** The reports of the script *)

(** The payloads [run] leaves in an empty sink. *)
Lemma run_payloads i o p :
  In p (snd (run i o [])) ->
  match o with
  | Exited0 out =>
      exists mt, exec version_re out = Some mt
                 /\ decoded p = passed_result i (group 2 mt)
  | ExecThrew out err =>
      exists mt t e,
        exec version_re (captured_stdout (ChildProcessError out err)) = Some mt
        /\ decoded p
           = failed_result i (ChildProcessError out err)
               (captured_stdout (ChildProcessError out err)) t e
  end.
Proof.
  rewrite run_spec. destruct o as [out|out err]; cbv zeta.
  - destruct (exec version_re out) as [mt|]; cbn [snd app]; [|contradiction].
    intros [<-|[]]. now exists mt.
  - destruct (exec version_re _) as [mt|]; cbn [snd]; [|contradiction].
    destruct (count is_period (group 2 mt)) as [|t]; cbn [snd];
      [contradiction|].
    destruct (count is_failure_glyph (group 2 mt)) as [|e]; cbn [snd app];
      [contradiction|].
    intros [<-|[]]. now exists mt, (S t), (S e).
Qed.

(** The payloads of the script, path by path. *)
Lemma main_payloads i o build_o run_o p :
  In p (snd (main i o build_o run_o [])) ->
  (setup_failed i o = true
   /\ exists msg rs, o = SpawnReturned rs
                     /\ decoded p = setup_result i msg rs)
  \/ (setup_failed i o = false
      /\ exists out err, build_o = ExecThrew out err
                         /\ decoded p = build_result i out err)
  \/ (setup_failed i o = false /\ exec_failed build_o = false
      /\ In p (snd (run i run_o []))).
Proof.
  rewrite main_sink. cbv zeta. unfold setup_failed.
  assert (Hb : In p (match build_o with
                     | ExecThrew out err => [] ++ [Payload (build_result i out err)]
                     | Exited0 _ => snd (run i run_o [])
                     end) ->
               (exists out err, build_o = ExecThrew out err
                                /\ decoded p = build_result i out err)
               \/ (exec_failed build_o = false /\ In p (snd (run i run_o [])))).
  { destruct build_o as [bo|bo be].
    - intro H. right. now split.
    - intros [<-|[]]. left. now exists bo, be. }
  destruct (setupCommand i).
  - intro H. destruct (Hb H) as [H1|H1]; auto.
  - destruct o as [rs|e]; [|contradiction].
    destruct (sp_error rs) as [msg|].
    + intros [<-|[]]. left. split; [reflexivity|]. now exists msg, rs.
    + intro H. destruct (Hb H) as [H1|H1]; auto.
Qed.

(** X6.  A payload of the script lacks the score of its test entry exactly
    when the tests were not run, that is when the setup or the build
    failed; every report of [run] carries a score. *)
Theorem score_absent_iff_tests_not_run i setup_o build_o run_o :
  Forall
    (fun p =>
       reported_score (decoded p) = None
       <-> setup_failed i setup_o || exec_failed build_o = true)
    (snd (main i setup_o build_o run_o [])).
Proof.
  apply Forall_forall. intros p Hp.
  destruct (main_payloads _ _ _ _ _ Hp)
    as [(Hs & msg & rs & _ & ->)|[(Hs & out & err & -> & ->)|(Hs & Hb & Hr)]].
  - rewrite Hs. split; reflexivity.
  - rewrite Hs. split; reflexivity.
  - rewrite Hs, Hb. apply run_payloads in Hr.
    destruct run_o as [out|out err].
    + destruct Hr as (mt & _ & ->). split; discriminate.
    + destruct Hr as (mt & t & e & _ & ->). split; discriminate.
Qed.

(** X7.  In every payload of the script the ceiling is the configured one,
    the only test entry bears the display name and the status of the report,
    and the status is pass exactly when setup and build passed and the test
    command exited with status 0, in which case the score is the ceiling;
    otherwise the status is error. *)
Theorem report_status i setup_o build_o run_o :
  Forall
    (fun p =>
       let r := decoded p in
       max_score r = maxScore i
       /\ (exists t, tests r = [t] /\ test_status t = status r
                     /\ name t = display_name i)
       /\ (status r = js "pass"
           <-> setup_failed i setup_o = false /\ exec_failed build_o = false
               /\ exec_failed run_o = false)
       /\ (status r = js "pass" -> reported_score r = Some (maxScore i))
       /\ (status r <> js "pass" -> status r = js "error"))
    (snd (main i setup_o build_o run_o [])).
Proof.
  assert (Hne : js "error" <> js "pass") by discriminate.
  apply Forall_forall. intros p Hp. cbv zeta.
  destruct (main_payloads _ _ _ _ _ Hp)
    as [(Hs & msg & rs & _ & ->)|[(Hs & out & err & -> & ->)|(Hs & Hb & Hr)]].
  - split; [reflexivity|]. split; [eexists; repeat split|].
    rewrite Hs. cbn [status setup_result].
    repeat split; try reflexivity; try tauto; try discriminate.
    intros (H & _); discriminate.
  - split; [reflexivity|]. split; [eexists; repeat split|].
    cbn [status build_result exec_failed].
    repeat split; try reflexivity; try tauto; try discriminate.
    intros (_ & H & _); discriminate.
  - apply run_payloads in Hr. destruct run_o as [out|out err].
    + destruct Hr as (mt & _ & ->).
      split; [reflexivity|]. split; [eexists; repeat split|].
      cbn [status passed_result exec_failed]. repeat split; auto.
      intro H; now elim H.
    + destruct Hr as (mt & t & e & _ & ->).
      split; [reflexivity|]. split; [eexists; repeat split|].
      cbn [status failed_result exec_failed].
      repeat split; try reflexivity; try tauto; try discriminate.
      intros (_ & _ & H); discriminate.
Qed.

(** X13.  When a failing run is reported and the test command wrote to its
    standard error output, the markdown of the report ends with the section
    Error Output holding that output, trimmed, between code fences. *)
Theorem failing_report_ends_with_stderr i out err c r :
  run i (ExecThrew out (Some err)) [] = (c, [Payload r]) ->
  err <> [] ->
  last (markdown_text r) (Str []) = stderr_section err.
Proof.
  intros Hrun Herr. apply run_report in Hrun. cbv zeta in Hrun.
  destruct Hrun as (mt & p & e & _ & _ & _ & ->).
  unfold markdown_text, failed_result. cbn [markdown].
  unfold error_output. cbn [exn_stderr].
  destruct err as [|a err]; [contradiction|].
  rewrite app_assoc. apply last_last.
Qed.

Lemma failing_report_stderr_witness :
  last (markdown_text
          (failed_result (sample_inputs true 10)
             (ChildProcessError (Some two_of_five_failed)
                (Some (js "Picked up _JAVA_OPTIONS" ++ [LF])))
             (trim two_of_five_failed) 3 2))
       (Str [])
  = stderr_section (js "Picked up _JAVA_OPTIONS" ++ [LF]).
Proof.
  apply (@failing_report_ends_with_stderr (sample_inputs true 10)
           (Some two_of_five_failed) (js "Picked up _JAVA_OPTIONS" ++ [LF])
           (Normal (Some false))).
  - vm_compute. reflexivity.
  - discriminate.
Defined.

(** ** The failure blocks and the tables *)

Lemma search_none_everywhere r s :
  forall pv pre p,
    search r pv pre s = None -> In p (positions pv s) ->
    attempt r (fst p) (snd p) = None.
Proof.
  intros pv pre p Hs Hp. destruct (attempt r (fst p) (snd p)) eqn:E;
    [|reflexivity].
  exfalso. apply (search_complete r s pv pre p Hp); congruence.
Qed.

Lemma split_re_loop_no_match r s :
  forall pv cur,
    (forall p, In p (positions pv s) -> attempt r (fst p) (snd p) = None) ->
    split_re_loop r pv s 0 cur = [rev cur ++ s].
Proof.
  induction s as [|ch tl IH]; intros pv cur H.
  - cbn. now rewrite app_nil_r.
  - cbn [split_re_loop].
    pose proof (H (pv, ch :: tl) (positions_head _ _)) as H0.
    cbn [fst snd] in H0. rewrite H0. rewrite IH.
    + cbn [rev]. now rewrite <- app_assoc.
    + intros p Hp. apply H. now right.
Qed.

(** X9.  When no line of the output is a failure header (digits and a
    closing parenthesis at the start of a line), there is no failure block
    and the table of the report has no row. *)
Theorem no_header_no_block stdOut :
  exec header_re stdOut = None ->
  failure_blocks stdOut = []
  /\ snd (classify_all (failure_blocks stdOut)) = table_head.
Proof.
  intro H.
  assert (Hb : failure_blocks stdOut = []).
  { unfold failure_blocks, split_re. destruct stdOut as [|ch tl].
    - unfold exec in H. cbn [search] in H.
      destruct (attempt header_re None []); [discriminate|reflexivity].
    - rewrite split_re_loop_no_match; [reflexivity|].
      intros p Hp. exact (search_none_everywhere _ _ _ _ p H Hp). }
  split; [exact Hb|]. now rewrite Hb.
Qed.

Lemma no_header_witness :
  failure_blocks (js "JUnit version 4.13.2" ++ [LF] ++ js ".E" ++ [LF]
                  ++ js "Time: 0.01") = []
  /\ snd (classify_all
            (failure_blocks (js "JUnit version 4.13.2" ++ [LF] ++ js ".E"
                             ++ [LF] ++ js "Time: 0.01")))
     = table_head.
Proof. apply no_header_no_block. vm_compute. reflexivity. Defined.

Lemma classify_all_from acc failures :
  fold_left
    (fun acc failure =>
       let (rows, html) := classify failure in
       (fst acc ++ rows, snd acc ++ html))
    failures acc
  = (fst acc ++ concat (List.map (fun f => fst (classify f)) failures),
     snd acc ++ concat (List.map (fun f => snd (classify f)) failures)).
Proof.
  revert acc. induction failures as [|f fs IH]; intro acc.
  - cbn. rewrite !app_nil_r. now destruct acc.
  - cbn [fold_left List.map concat]. rewrite IH.
    destruct (classify f) as [rows html]. cbn [fst snd].
    now rewrite !app_assoc.
Qed.

(** X10.  The loop over the failure blocks keeps their order: the rows of
    the console table and the rows of the HTML table, after its head, are
    those of the first block, then those of the second, and so on. *)
Theorem tables_follow_block_order failures :
  classify_all failures
  = (concat (List.map (fun f => fst (classify f)) failures),
     table_head ++ concat (List.map (fun f => snd (classify f)) failures)).
Proof. unfold classify_all. now rewrite classify_all_from. Qed.

(** X11.  A block in which the pattern of line 264 (expected and but was)
    matches while the pattern of line 266 (the same after AssertionError or
    ComparisonFailure and a colon) does not, gets no row in either table:
    the iterator of [matchAll] is truthy, so the branch of lines 273 to 279
    is never taken. *)
Theorem comparison_without_kind_is_dropped failure :
  match_g comparison_re failure <> None ->
  exec assertion_re failure = None ->
  classify failure = ([], []).
Proof.
  intros Hg Ha. unfold classify.
  destruct (match_g comparison_re failure); [|contradiction].
  apply match_g_null in Ha. unfold match_g in Ha.
  destruct (matchAll assertion_re failure); [reflexivity|discriminate].
Qed.

Lemma comparison_without_kind_witness :
  classify ([LF] ++ js "org.opentest4j.AssertionFailedError: expected:<1> but was:<2>")
  = ([], []).
Proof.
  apply comparison_without_kind_is_dropped.
  - vm_compute. discriminate.
  - vm_compute. reflexivity.
Defined.

(** X12.  The replacement of line breaks by <br> at line 271 never changes
    an expected or actual value: the dot of the pattern of line 266 accepts
    no line terminator, so the trimmed values hold none. *)
Theorem br_never_applies failure mt :
  In mt (matchAll assertion_re failure) ->
  br (trim (group 3 mt)) = trim (group 3 mt)
  /\ br (trim (group 4 mt)) = trim (group 4 mt)
  /\ one_line (group 3 mt) /\ one_line (group 4 mt).
Proof.
  intro Hin.
  assert (H3 : one_line (group 3 mt))
    by (apply (@assertion_values_one_line failure mt 3 Hin); lia).
  assert (H4 : one_line (group 4 mt))
    by (apply (@assertion_values_one_line failure mt 4 Hin); lia).
  repeat split; auto using br_one_line, one_line_trim.
Qed.

Lemma br_never_applies_witness :
  exists mt,
    In mt (matchAll assertion_re (js "AssertionError: expected:< 1 > but was:<2>"))
    /\ br (trim (group 3 mt)) = js "1".
Proof.
  destruct (matchAll assertion_re (js "AssertionError: expected:< 1 > but was:<2>"))
    as [|mt l] eqn:E; [vm_compute in E; discriminate|].
  exists mt. split; [now left|].
  destruct (@br_never_applies
              (js "AssertionError: expected:< 1 > but was:<2>") mt) as [H _].
  - rewrite E. now left.
  - rewrite H. vm_compute in E. inversion E; subst. vm_compute. reflexivity.
Defined.

(** X15.  When the first non-blank line of an unstructured block starts
    with java.lang. and holds a colon, the message is what follows the last
    colon of that line, trimmed: the class name and every earlier part of
    the text of the exception are removed with it. *)
Theorem java_lang_message failure mid post :
  trim (first_nonblank_line failure) = js "java.lang." ++ mid ++ [58%N] ++ post ->
  one_line mid -> one_line post -> ~ In 58%N post ->
  exec timed_out_re (trim post) = None ->
  other_message failure = trim post.
Proof.
  intros Hline Hm Hp Hc Ht.
  assert (E : replace java_lang_re [] (trim (first_nonblank_line failure))
              = post).
  { rewrite Hline. exact (java_lang_prefix_removed Hm Hp Hc). }
  rewrite other_message_spec, E.
  unfold replace. rewrite Ht. apply trim_idem.
Qed.

Lemma java_lang_message_witness :
  other_message ([LF] ++ js "java.lang.IllegalStateException: close: failed"
                 ++ [LF] ++ js "   at FooTest.tearDown(FooTest.java:20)")
  = js "failed".
Proof.
  rewrite (@java_lang_message
             ([LF] ++ js "java.lang.IllegalStateException: close: failed"
              ++ [LF] ++ js "   at FooTest.tearDown(FooTest.java:20)")
             (js "IllegalStateException: close") (js " failed")).
  - vm_compute. reflexivity.
  - vm_compute. reflexivity.
  - repeat constructor.
  - repeat constructor.
  - vm_compute. intuition discriminate.
  - vm_compute. reflexivity.
Defined.

(** X16.  When the first non-blank line of an unstructured block starts
    with org.junit.runners.model.TestTimedOutException and a colon, and
    java.lang. does not occur in it, the message is the rest of the line,
    trimmed. *)
Theorem timed_out_message failure post :
  trim (first_nonblank_line failure)
  = js "org.junit.runners.model.TestTimedOutException:" ++ post ->
  exec java_lang_re (trim (first_nonblank_line failure)) = None ->
  other_message failure = trim post.
Proof.
  intros Hline Hj. rewrite other_message_spec.
  unfold replace at 2. rewrite Hj, trim_idem, Hline.
  now rewrite timed_out_prefix_removed.
Qed.

Lemma timed_out_message_witness :
  other_message
    ([LF] ++ js "org.junit.runners.model.TestTimedOutException: test timed out after 100 milliseconds"
     ++ [LF] ++ js "   at FooTest.testSlow(FooTest.java:30)")
  = js "test timed out after 100 milliseconds".
Proof.
  rewrite (@timed_out_message
             ([LF] ++ js "org.junit.runners.model.TestTimedOutException: test timed out after 100 milliseconds"
              ++ [LF] ++ js "   at FooTest.testSlow(FooTest.java:30)")
             (js " test timed out after 100 milliseconds")).
  - vm_compute. reflexivity.
  - vm_compute. reflexivity.
  - vm_compute. reflexivity.
Defined.

(** ** A version line with two components *)

Section ShortVersion.

Lemma psteps_chr_lit l :
  forall p q, psteps (seqs (List.map chr l)) p q -> snd p = l ++ snd q.
Proof.
  induction l as [|a l IH]; intros p q H.
  - cbn in H. now subst.
  - assert (Ha : forall p q, psteps (chr a) p q -> snd p = a :: snd q).
    { intros p0 q0 (ch & Hs & Hc & _). apply N.eqb_eq in Hc. now subst. }
    destruct l as [|b l'].
    + now apply Ha.
    + change (seqs (List.map chr (a :: b :: l')))
        with (Seq (chr a) (seqs (List.map chr (b :: l')))) in H.
      destruct H as (mid & H1 & H2).
      apply Ha in H1. apply IH in H2. now rewrite H1, H2.
Qed.

Lemma psteps_lit str p q : psteps (lit str) p q -> snd p = js str ++ snd q.
Proof. apply psteps_chr_lit. Qed.

Lemma psteps_plus cls p q :
  psteps (plus cls) p q ->
  exists t, t <> [] /\ Forall (fun c => cls c = true) t /\ snd p = t ++ snd q.
Proof.
  intros (mid & (ch & Hs & Hc & _) & H2).
  destruct (pstar_chars H2) as (t & Ht & Hall).
  exists (ch :: t). repeat split; [discriminate|now constructor|].
  now rewrite Hs, Ht.
Qed.

(** A run of code units of a class that is followed by none of the class
    is cut in one way only. *)
Lemma span_unique (P : char -> bool) a :
  forall b x y,
    Forall (fun c => P c = true) a -> Forall (fun c => P c = true) b ->
    not_in P x -> not_in P y -> a ++ x = b ++ y -> a = b /\ x = y.
Proof.
  induction a as [|c a IH]; intros b x y Ha Hb Hx Hy E.
  - destruct b as [|d b]; [auto|]. cbn in E. subst x. cbn in Hx.
    inversion Hb; subst. congruence.
  - destruct b as [|d b].
    + cbn in E. subst y. cbn in Hy. inversion Ha; subst. congruence.
    + cbn in E. inversion E; subst. inversion Ha; inversion Hb; subst.
      destruct (IH b x y) as [-> ->]; auto.
Qed.

Lemma attempt_short_version pv major minor rest :
  digits major -> digits minor ->
  attempt version_re pv
    (js "version " ++ major ++ js "." ++ minor ++ [LF] ++ rest) = None.
Proof.
  intros Hma Hmi.
  destruct (attempt version_re pv _) as [y|] eqn:E; [exfalso|reflexivity].
  apply attempt_sound in E.
  change version_re
    with (Seq (lit "version")
           (Seq (Star true isWhiteSpace)
              (Seq (plus isDigit)
                 (Seq (lit ".")
                    (Seq (plus isDigit)
                       (Seq (Group 1 (Seq (lit ".") (plus isDigit)))
                          (seqs [opt (chr CR); chr LF;
                                 Group 2 (Star false dot); version_end])))))))
    in E.
  destruct E as (m1 & H1 & m2 & H2 & m3 & H3 & m4 & H4 & m5 & H5 & m6 & H6 & _).
  apply psteps_lit in H1. cbn [snd] in H1.
  change (js "version " ++ major ++ js "." ++ minor ++ [LF] ++ rest)
    with (js "version" ++ [32%N] ++ major ++ js "." ++ minor ++ [LF] ++ rest)
    in H1.
  apply app_inv_head in H1.
  destruct (pstar_chars H2) as (t0 & E2 & Hws).
  destruct (psteps_plus H3) as (t1 & Hne1 & Hd1 & E3).
  apply psteps_lit in H4.
  destruct (psteps_plus H5) as (t2 & Hne2 & Hd2 & E5).
  destruct H6 as (m7 & H6 & _). apply psteps_lit in H6.
  rewrite E2, E3, H4, E5, H6 in H1.
  assert (Ea : major ++ js "." ++ minor ++ [LF] ++ rest
               = t1 ++ js "." ++ t2 ++ js "." ++ snd m7).
  { refine (proj2 (@span_unique isWhiteSpace [32%N] t0 _ _ _ Hws _ _ H1)).
    - repeat constructor.
    - now apply digits_head_not_white.
    - apply digits_head_not_white. now split. }
  assert (Eb : js "." ++ minor ++ [LF] ++ rest
               = js "." ++ t2 ++ js "." ++ snd m7).
  { refine (proj2 (@span_unique isDigit major t1 _ _ (proj2 Hma) Hd1 _ _ Ea));
      reflexivity. }
  apply app_inv_head in Eb.
  assert (Ec : [LF] ++ rest = js "." ++ snd m7).
  { refine (proj2 (@span_unique isDigit minor t2 _ _ (proj2 Hmi) Hd2 _ _ Eb));
      reflexivity. }
  discriminate.
Qed.

Lemma digits_no_v t : digits t -> no_v t.
Proof.
  intros [_ H]. unfold no_v. eapply Forall_impl; [|exact H].
  intros c Hc. unfold isDigit in Hc. apply andb_prop in Hc as [H1 H2].
  apply N.leb_le in H1, H2. apply N.eqb_neq. lia.
Qed.

Lemma search_version_no_v s :
  no_v s -> forall pv pre, search version_re pv pre s = None.
Proof.
  intros H pv pre. rewrite <- (app_nil_r s).
  rewrite (@search_version_skip s [] H). reflexivity.
Qed.

Lemma exec_short_version banner major minor rest :
  no_v banner -> digits major -> digits minor -> no_v rest ->
  exec version_re (short_version_output banner major minor rest) = None.
Proof.
  intros Hb Hma Hmi Hr. unfold exec, short_version_output.
  rewrite (@search_version_skip banner _ Hb).
  change (js "version " ++ major ++ js "." ++ minor ++ [LF] ++ rest)
    with (118%N :: (js "ersion " ++ major ++ js "." ++ minor ++ [LF] ++ rest)).
  cbn [search].
  change (118%N :: (js "ersion " ++ major ++ js "." ++ minor ++ [LF] ++ rest))
    with (js "version " ++ major ++ js "." ++ minor ++ [LF] ++ rest).
  rewrite (attempt_short_version _ rest Hma Hmi).
  apply search_version_no_v. unfold no_v.
  repeat (apply Forall_app; split);
    try (apply digits_no_v; assumption); try assumption;
    repeat constructor.
Qed.

End ShortVersion.

(** X2.  An output whose version line has two components only (JUnit
    version 4.12, then a line break) is not parsed: the version pattern asks
    for three, so it finds no match and a run that exits with status 0
    emits nothing. *)
Theorem short_version_emits_nothing i banner major minor rest k :
  no_v banner -> digits major -> digits minor -> no_v rest ->
  exec version_re (short_version_output banner major minor rest) = None
  /\ run i (Exited0 (short_version_output banner major minor rest)) k
     = (Throw TypeError, k).
Proof.
  intros Hb Hma Hmi Hr.
  pose proof (exec_short_version Hb Hma Hmi Hr) as H.
  split; [exact H|]. now rewrite run_spec, H.
Qed.

Lemma short_version_witness :
  run (sample_inputs false 10)
    (Exited0 (js "JUnit version 4.12" ++ [LF] ++ js ".." ++ [LF]
              ++ js "Time: 0.01" ++ [LF] ++ [LF] ++ js "OK (2 tests)" ++ [LF]))
    []
  = (Throw TypeError, []).
Proof.
  apply (@short_version_emits_nothing (sample_inputs false 10)
           (js "JUnit ") (js "4") (js "12")
           (js ".." ++ [LF] ++ js "Time: 0.01" ++ [LF] ++ [LF]
            ++ js "OK (2 tests)" ++ [LF]) []).
  - repeat constructor.
  - split; [discriminate|repeat constructor].
  - split; [discriminate|repeat constructor].
  - repeat constructor.
Defined.

(** ** How the script ends *)

Lemma main_ends i o build_o run_o :
  (exists r, main i o build_o run_o [] = (Normal tt, [Payload r]))
  \/ (exists e, main i o build_o run_o [] = (Throw e, [])
                /\ (o = SpawnThrew e \/ e = TypeError)).
Proof.
  rewrite main_cases. cbv zeta.
  assert (Hb : (exists r,
                  match build_o with
                  | ExecThrew out err =>
                      (Normal tt, [] ++ [Payload (build_result i out err)])
                  | Exited0 _ =>
                      match run i run_o [] with
                      | (Normal _, k3) => (Normal tt, k3)
                      | (Throw e, k3) => (Throw e, k3)
                      end
                  end = (Normal tt, [Payload r]))
               \/ (exists e,
                     match build_o with
                     | ExecThrew out err =>
                         (Normal tt, [] ++ [Payload (build_result i out err)])
                     | Exited0 _ =>
                         match run i run_o [] with
                         | (Normal _, k3) => (Normal tt, k3)
                         | (Throw e, k3) => (Throw e, k3)
                         end
                     end = (Throw e, [])
                     /\ (o = SpawnThrew e \/ e = TypeError))).
  { destruct build_o as [bo|bo be]; [|left; eexists; reflexivity].
    rewrite run_spec. destruct run_o as [out|out err]; cbv zeta.
    - destruct (exec version_re out) as [mt|].
      + left. eexists. reflexivity.
      + right. exists TypeError. auto.
    - destruct (exec version_re _) as [mt|];
        [|right; exists TypeError; auto].
      destruct (count is_period (group 2 mt));
        [right; exists TypeError; auto|].
      destruct (count is_failure_glyph (group 2 mt));
        [right; exists TypeError; auto|].
      left. eexists. reflexivity. }
  destruct (setupCommand i); [exact Hb|].
  destruct o as [rs|e].
  - destruct (sp_error rs); [|exact Hb]. left. eexists. reflexivity.
  - right. exists e. auto.
Qed.

(** X8.  The script never ends silently: either it ends normally after
    giving the sink exactly one payload, or it gives the sink nothing and
    ends with an exception no [catch] block receives: the [Error] of
    [core.getInput] for a required input that is not supplied, the exception
    of [spawnSync], or the [TypeError] thrown in the [catch] block of
    [run]. *)
Theorem report_or_uncaught_error parseFloat cfg setup_o build_o run_o :
  (exists r,
     script parseFloat cfg setup_o build_o run_o [] = (Normal tt, [Payload r]))
  \/ (exists e,
        script parseFloat cfg setup_o build_o run_o [] = (Throw e, [])
        /\ (e = InputError (js "test-name")
            \/ e = InputError (js "test-class")
            \/ setup_o = SpawnThrew e
            \/ e = TypeError)).
Proof.
  rewrite script_spec.
  destruct (cfg_test_name cfg); [right; eexists; split; [reflexivity|auto]|].
  destruct (cfg_test_class cfg);
    [right; eexists; split; [reflexivity|auto]|].
  destruct (main_ends (inputs_read parseFloat cfg) setup_o build_o run_o)
    as [H|(e & H & He)]; [now left|].
  right. exists e. split; [exact H|]. tauto.
Qed.

(** ** An output of the form JUnit prints, end to end *)

(** X14.  On an output of the form JUnit prints with a version of three
    components, [run] reads the line after the version line as the marker
    line: after status 0 it reports a pass over as many tests as the line
    has code units, and after a failure, when the line holds a period and
    a failure glyph, it reports the numbers of periods and of failure
    glyphs. *)
Theorem junit_output_is_reported i banner major minor patch dots tail k :
  no_v banner -> digits major -> digits minor -> digits patch ->
  one_line dots -> line_end tail ->
  run i (Exited0 (junit_output banner major minor patch dots tail)) k
  = (Normal None, k ++ [Payload (passed_result i dots)])
  /\ forall raw err p e,
       trim raw = junit_output banner major minor patch dots tail ->
       count is_period dots = S p ->
       count is_failure_glyph dots = S e ->
       run i (ExecThrew (Some raw) err) k
       = (Normal (Some false),
          k ++ [Payload (failed_result i (ChildProcessError (Some raw) err)
                           (junit_output banner major minor patch dots tail)
                           (S p) (S e))]).
Proof.
  intros Hb Hma Hmi Hpa Hd Ht.
  destruct (@junit_marker_line banner major minor patch dots tail
              Hb Hma Hmi Hpa Hd Ht) as (mt & Hm & Hg).
  split.
  - now rewrite run_spec, Hm, Hg.
  - intros raw err p e Hraw Hp He. rewrite run_spec. cbv zeta.
    cbn [captured_stdout exn_stdout]. now rewrite Hraw, Hm, Hg, Hp, He.
Qed.

Lemma junit_output_witness :
  run (sample_inputs true 10)
    (Exited0 (junit_output (js "JUnit ") (js "4") (js "13") (js "2")
                (js "...") ([LF] ++ js "Time: 0.01" ++ [LF]))) []
  = (Normal None, [Payload (passed_result (sample_inputs true 10) (js "..."))])
  /\ run (sample_inputs true 10)
       (ExecThrew
          (Some (junit_output (js "JUnit ") (js "4") (js "13") (js "2")
                   (js "..E.E") ([LF] ++ js "Time: 0.01") ++ [LF]))
          None) []
     = (Normal (Some false),
        [Payload
           (failed_result (sample_inputs true 10)
              (ChildProcessError
                 (Some (junit_output (js "JUnit ") (js "4") (js "13") (js "2")
                          (js "..E.E") ([LF] ++ js "Time: 0.01") ++ [LF]))
                 None)
              (junit_output (js "JUnit ") (js "4") (js "13") (js "2")
                 (js "..E.E") ([LF] ++ js "Time: 0.01"))
              3 2)]).
Proof.
  split.
  - apply (@junit_output_is_reported (sample_inputs true 10) (js "JUnit ")
             (js "4") (js "13") (js "2") (js "...")
             ([LF] ++ js "Time: 0.01" ++ [LF]) []).
    + repeat constructor.
    + split; [discriminate|repeat constructor].
    + split; [discriminate|repeat constructor].
    + split; [discriminate|repeat constructor].
    + repeat constructor.
    + apply line_end_lf.
  - apply (@junit_output_is_reported (sample_inputs true 10) (js "JUnit ")
             (js "4") (js "13") (js "2") (js "..E.E")
             ([LF] ++ js "Time: 0.01") []).
    + repeat constructor.
    + split; [discriminate|repeat constructor].
    + split; [discriminate|repeat constructor].
    + split; [discriminate|repeat constructor].
    + repeat constructor.
    + apply line_end_lf.
    + vm_compute. reflexivity.
    + reflexivity.
    + reflexivity.
Defined.

(** ** The configuration *)

Lemma strip_prefix_app p :
  forall s r, strip_prefix p s = Some r -> s = p ++ r.
Proof.
  induction p as [|a p IH]; intros s r H.
  - cbn in H. now inversion H.
  - destruct s as [|b s]; [discriminate|]. cbn in H.
    destruct (char_eqb a b) eqn:E; [|discriminate].
    apply N.eqb_eq in E. subst b. now rewrite (IH _ _ H).
Qed.

Lemma split_loop_nonempty sep s :
  forall skip cur, split_loop sep s skip cur <> [].
Proof.
  induction s as [|c s IH]; intros skip cur.
  - destruct skip; discriminate.
  - destruct skip as [|k]; cbn [split_loop]; [|apply IH].
    destruct (strip_prefix sep (c :: s)); [discriminate|apply IH].
Qed.

Lemma join_cons sep x l :
  l <> [] -> join sep (x :: l) = x ++ sep ++ join sep l.
Proof. destruct l; [contradiction|reflexivity]. Qed.

(** Joining the segments of [split] with the separator gives the text
    back. *)
Lemma join_split_loop sep s :
  sep <> [] ->
  forall skip cur,
    join sep (split_loop sep s skip cur) = rev cur ++ skipn skip s.
Proof.
  intro Hne. induction s as [|c s IH]; intros skip cur.
  - destruct skip; cbn; now rewrite app_nil_r.
  - destruct skip as [|k]; cbn [split_loop skipn]; [|apply IH].
    destruct (strip_prefix sep (c :: s)) as [r|] eqn:E.
    + rewrite join_cons by apply split_loop_nonempty.
      rewrite IH. cbn [rev app]. apply strip_prefix_app in E.
      destruct sep as [|a sep']; [contradiction|].
      cbn [app] in E. inversion E; subst. cbn [length pred].
      now rewrite skipn_app, skipn_all, Nat.sub_diag.
    + rewrite IH. cbn [rev skipn]. now rewrite <- app_assoc.
Qed.

Lemma jsstring_eqb_eq s :
  forall t, jsstring_eqb s t = true <-> s = t.
Proof.
  induction s as [|a s IH]; intros [|b t]; cbn; split; try discriminate; auto.
  - intro H. apply andb_prop in H as [H1 H2]. apply N.eqb_eq in H1.
    apply IH in H2. now subst.
  - intro H. inversion H; subst. apply andb_true_intro. split.
    + apply N.eqb_refl.
    + now apply IH.
Qed.

Lemma getInputs_supplied parseFloat cfg k :
  inputs_supplied cfg = true ->
  getInputs parseFloat cfg k = (Normal (inputs_read parseFloat cfg), k).
Proof.
  intro H. rewrite getInputs_spec. unfold inputs_supplied in H.
  destruct (cfg_test_name cfg); [discriminate|].
  destruct (cfg_test_class cfg); [discriminate|reflexivity].
Qed.

Lemma getInputs_returns parseFloat cfg k i k' :
  getInputs parseFloat cfg k = (Normal i, k') ->
  i = inputs_read parseFloat cfg.
Proof.
  rewrite getInputs_spec.
  destruct (cfg_test_name cfg); [discriminate|].
  destruct (cfg_test_class cfg); [discriminate|]. now intros [= <- _].
Qed.

(** X17.  When the two required inputs are supplied and the value of the
    input test-class, as [core.getInput] returns it (with leading and
    trailing white space removed), does not hold the seven code units of
    the separator of line 15 (the letter s, a star, a comma, the letter s,
    a star and two blanks), [getInputs] returns one test class identifier,
    that trimmed value with its commas, and the run command ends with
    it. *)
Theorem test_class_without_separator parseFloat cfg k :
  inputs_supplied cfg = true ->
  includes test_class_separator (trim (cfg_test_class cfg)) = false ->
  exists i,
    getInputs parseFloat cfg k = (Normal i, k)
    /\ testClasses i = [trim (cfg_test_class cfg)]
    /\ runCommand i
       = js "java -cp " ++ [DQUOTE] ++ libFolder i ++ js "/*:." ++ [DQUOTE]
            ++ js " org.junit.runner.JUnitCore " ++ trim (cfg_test_class cfg).
Proof.
  intros Hs H. exists (inputs_read parseFloat cfg).
  split; [now apply getInputs_supplied|].
  unfold inputs_read. cbn [testClasses runCommand libFolder].
  rewrite (split_test_class_whole _ H). split; reflexivity.
Qed.

Lemma test_class_without_separator_witness :
  exists i,
    getInputs (fun _ => 10%float)
      (Config (js "Unit tests") (js " FooTest,BarTest , BazTest ") [] []
         (js "10") [] (js "true")) []
    = (Normal i, [])
    /\ testClasses i = [js "FooTest,BarTest , BazTest"]
    /\ runCommand i
       = js "java -cp " ++ [DQUOTE] ++ libFolder i ++ js "/*:." ++ [DQUOTE]
            ++ js " org.junit.runner.JUnitCore "
            ++ js "FooTest,BarTest , BazTest".
Proof.
  apply (@test_class_without_separator (fun _ => 10%float)
           (Config (js "Unit tests") (js " FooTest,BarTest , BazTest ") [] []
              (js "10") [] (js "true")) []).
  - reflexivity.
  - vm_compute. reflexivity.
Defined.

(** X18.  When the two required inputs are supplied, [getInputs] returns
    at least one test class identifier, and the identifiers joined by the
    separator of line 15 are the value of the input test-class as
    [core.getInput] returns it, that is with leading and trailing white
    space removed: the trimmed value is cut at the occurrences of that
    literal only, and nothing else of it is dropped. *)
Theorem test_classes_round_trip parseFloat cfg k :
  inputs_supplied cfg = true ->
  exists i,
    getInputs parseFloat cfg k = (Normal i, k)
    /\ testClasses i <> []
    /\ join test_class_separator (testClasses i)
       = trim (cfg_test_class cfg).
Proof.
  intro Hs. exists (inputs_read parseFloat cfg).
  split; [now apply getInputs_supplied|].
  unfold inputs_read. cbn [testClasses].
  unfold split_test_class, split, test_class_separator.
  cbn [js List.map list_ascii_of_string]. split.
  - apply split_loop_nonempty.
  - rewrite join_split_loop by discriminate. reflexivity.
Qed.

Lemma test_classes_round_trip_witness :
  exists i,
    getInputs (fun _ => 10%float)
      (Config (js "Unit tests") (js " FooTests*,s*  BarTest ") [] []
         (js "10") [] (js "true")) []
    = (Normal i, [])
    /\ testClasses i <> []
    /\ join test_class_separator (testClasses i)
       = trim (js " FooTests*,s*  BarTest ").
Proof.
  apply (@test_classes_round_trip (fun _ => 10%float)
           (Config (js "Unit tests") (js " FooTests*,s*  BarTest ") [] []
              (js "10") [] (js "true")) []).
  reflexivity.
Defined.

(** X19.  Partial credit is granted exactly when the value of the input
    partial-credit, as [core.getInput] returns it (with leading and trailing
    white space removed), is true: with any other value (True, yes, 1)
    every report of a failing run carries the score 0. *)
Theorem partial_credit_needs_exact_true parseFloat cfg k i k' :
  getInputs parseFloat cfg k = (Normal i, k') ->
  (partialCredit i = true <-> trim (cfg_partial_credit cfg) = js "true")
  /\ (trim (cfg_partial_credit cfg) <> js "true" ->
      forall out err c r,
        run i (ExecThrew out err) [] = (c, [Payload r]) ->
        reported_score r = Some 0%float).
Proof.
  intro Hi. apply getInputs_returns in Hi. subst i.
  assert (Hpc : partialCredit (inputs_read parseFloat cfg) = true
                <-> trim (cfg_partial_credit cfg) = js "true").
  { unfold inputs_read. cbn [partialCredit]. apply jsstring_eqb_eq. }
  split; [exact Hpc|]. intros Hv out err c r Hrun.
  apply run_report in Hrun. cbv zeta in Hrun.
  destruct Hrun as (mt & p & e & _ & _ & _ & ->).
  rewrite failed_score. unfold awarded.
  destruct (partialCredit (inputs_read parseFloat cfg)); [|reflexivity].
  exfalso. apply Hv. now apply Hpc.
Qed.

Lemma partial_credit_needs_exact_true_witness :
  (partialCredit
     (inputs_read (fun _ => 10%float)
        (Config (js "Unit tests") (js "FooTest") [] [] (js "10") []
           (js " true ")))
   = true
   <-> trim (js " true ") = js "true")
  /\ (trim (js " true ") <> js "true" ->
      forall out err c r,
        run (inputs_read (fun _ => 10%float)
               (Config (js "Unit tests") (js "FooTest") [] [] (js "10") []
                  (js " true ")))
          (ExecThrew out err) [] = (c, [Payload r]) ->
        reported_score r = Some 0%float).
Proof.
  apply (@partial_credit_needs_exact_true (fun _ => 10%float)
           (Config (js "Unit tests") (js "FooTest") [] [] (js "10") []
              (js " true ")) [] _ []).
  reflexivity.
Defined.

(** ** The failure blocks of an output laid out line by line *)

Section FailureBlocks.

Lemma last_of_app a :
  forall pv b, last_of pv (a ++ b) = last_of (last_of pv a) b.
Proof. induction a as [|c a IH]; intros pv b; [reflexivity|apply IH]. Qed.

Lemma length_app_sub (a b : jsstring) : length (a ++ b) - length b = length a.
Proof. rewrite length_app. lia. Qed.

Lemma digit_dot c : isDigit c = true -> dot c = true.
Proof.
  unfold isDigit, dot, isLineTerminator. intro H.
  apply andb_prop in H as [H1 H2]. apply N.leb_le in H1, H2.
  repeat match goal with
         | |- context [N.eqb ?a ?b] => destruct (N.eqb_spec a b); try lia
         end; reflexivity.
Qed.

Lemma header_one_line b :
  digits (ft_number b) -> one_line (ft_title b) -> one_line (header_text b).
Proof.
  intros [_ Hn] Ht. unfold header_text, one_line.
  apply Forall_app. split.
  - eapply Forall_impl; [|exact Hn]. apply digit_dot.
  - apply Forall_app. split; [repeat constructor|exact Ht].
Qed.

(** After a non-empty text without line terminator, the position is not
    the start of a line. *)
Lemma at_bol_after_one_line h :
  forall pv, h <> [] -> one_line h -> at_bol (last_of pv h) = false.
Proof.
  induction h as [|c t IH]; intros pv Hne Hh; [contradiction|].
  inversion Hh; subst. cbn [last_of]. destruct t as [|d t'].
  - cbn. unfold dot in *. now destruct (isLineTerminator c).
  - apply IH; [discriminate|assumption].
Qed.

Lemma plain_lines_weaken s pv : plain_lines None s = true -> plain_lines pv s = true.
Proof.
  destruct s as [|c tl]; [reflexivity|]. cbn [plain_lines at_bol andb].
  intro H. apply andb_prop in H as [H1 H2]. rewrite H2.
  destruct (isDigit c); [discriminate|]. now rewrite andb_false_r.
Qed.

Lemma attempt_header_nil pv : attempt header_re pv [] = None.
Proof. destruct pv as [p|]; cbn; [destruct (isLineTerminator p)|]; reflexivity. Qed.

(** The header pattern fails where no line starts with a digit. *)
Lemma attempt_header_plain pv c tl :
  negb (at_bol pv && isDigit c) = true -> attempt header_re pv (c :: tl) = None.
Proof.
  intro H. unfold attempt, header_re.
  cbn [seqs m plus prev rest caps andb]. destruct pv as [p|].
  - cbn [at_bol] in H. destruct (isLineTerminator p); [|reflexivity].
    cbn [andb] in H. destruct (isDigit c); [discriminate|reflexivity].
  - cbn [at_bol andb] in H. destruct (isDigit c); [discriminate|reflexivity].
Qed.

Lemma commits_bol pv s cs :
  at_bol pv = true -> commits (Bol true) (MState pv s cs) (MState pv s cs).
Proof.
  intros H c w Hc. cbn [m prev]. destruct pv as [p|]; [|exact Hc].
  cbn [at_bol] in H. now rewrite H.
Qed.

Lemma commits_eol pv s cs :
  not_in dot s -> commits (Eol true) (MState pv s cs) (MState pv s cs).
Proof.
  intros H c w Hc. cbn [m rest]. destruct s as [|ch tl]; [exact Hc|].
  cbn in H. unfold dot in H. destruct (isLineTerminator ch); [exact Hc|].
  discriminate.
Qed.

(** At the start of a line, the header pattern takes the header line and
    stops before the line terminator. *)
Lemma attempt_header pv b s :
  at_bol pv = true -> digits (ft_number b) -> one_line (ft_title b) ->
  not_in dot s ->
  attempt header_re pv (header_text b ++ s)
  = Some (MState (last_of pv (header_text b)) s []).
Proof.
  intros Hbol Hn Ht Hs. unfold attempt.
  assert (H : commits header_re (MState pv (header_text b ++ s) [])
                (MState (last_of pv (header_text b)) s [])).
  { unfold header_re, header_text.
    change (seqs [Bol true; plus isDigit; lit ")"; Star true dot; Eol true])
      with (Seq (Bol true)
              (Seq (plus isDigit)
                 (Seq (lit ")") (Seq (Star true dot) (Eol true))))).
    rewrite <- !app_assoc. rewrite !last_of_app.
    eapply commits_seq; [now apply commits_bol|].
    eapply commits_seq.
    { apply (@commits_digits (ft_number b)
               (js ")" ++ ft_title b ++ s) [] pv Hn). reflexivity. }
    eapply commits_seq; [apply (commits_lit ")")|].
    eapply commits_seq; [now apply commits_star_greedy|].
    now apply commits_eol. }
  now apply H.
Qed.

Lemma split_re_loop_plain s :
  forall pv cur rest,
    plain_lines pv s = true ->
    split_re_loop header_re pv (s ++ rest) 0 cur
    = split_re_loop header_re (last_of pv s) rest 0 (rev s ++ cur).
Proof.
  induction s as [|c tl IH]; intros pv cur rest H; [reflexivity|].
  cbn [plain_lines] in H. apply andb_prop in H as [H1 H2].
  cbn [app split_re_loop last_of]. rewrite (@attempt_header_plain pv c (tl ++ rest) H1).
  rewrite (IH _ _ _ H2). cbn [rev]. now rewrite <- app_assoc.
Qed.

Lemma split_re_loop_skip r s :
  forall pv cur rest,
    split_re_loop r pv (s ++ rest) (length s) cur
    = split_re_loop r (last_of pv s) rest 0 cur.
Proof.
  induction s as [|c tl IH]; intros pv cur rest; [reflexivity|].
  cbn [app length split_re_loop last_of]. apply IH.
Qed.

Lemma failures_text_cons b bs :
  failures_text (b :: bs)
  = header_text b ++ ft_body b ++ failures_text bs.
Proof. unfold failures_text. cbn [List.map concat]. now rewrite app_assoc. Qed.

Lemma header_text_cons b :
  digits (ft_number b) ->
  exists d h, header_text b = d :: h.
Proof.
  intros [Hne _]. unfold header_text.
  destruct (ft_number b) as [|d n]; [contradiction|].
  now exists d, (n ++ js ")" ++ ft_title b).
Qed.

(** What follows a header: its body, then the next header. *)
Lemma after_header_not_dot pv b bs :
  digits (ft_number b) -> one_line (ft_title b) -> not_in dot (ft_body b) ->
  failures_ok (last_of pv (header_text b ++ ft_body b)) bs ->
  not_in dot (ft_body b ++ failures_text bs).
Proof.
  intros Hn Ht Hb Hok. destruct (ft_body b) as [|c body]; [|exact Hb].
  destruct bs as [|b' bs']; [exact I|]. exfalso.
  destruct Hok as (Hbol & _). rewrite app_nil_r in Hbol.
  rewrite at_bol_after_one_line in Hbol; [discriminate| |].
  - destruct (@header_text_cons b Hn) as (d & h & ->). discriminate.
  - now apply header_one_line.
Qed.

Lemma split_failures bs :
  forall pv cur,
    failures_ok pv bs ->
    split_re_loop header_re pv (failures_text bs) 0 cur
    = rev cur :: List.map ft_body bs.
Proof.
  induction bs as [|b bs IH]; intros pv cur Hok; [reflexivity|].
  pose proof Hok as (Hbol & Hn & Ht & Hb & Hpl & Hrest).
  pose proof (@after_header_not_dot pv b bs Hn Ht Hb Hrest) as Hnd.
  pose proof (@attempt_header pv b (ft_body b ++ failures_text bs)
                Hbol Hn Ht Hnd) as Ha.
  rewrite failures_text_cons.
  pose proof (length_app_sub (header_text b)
                (ft_body b ++ failures_text bs)) as Hlen.
  rewrite last_of_app in Hrest.
  destruct (@header_text_cons b Hn) as (d & h & Eh).
  rewrite Eh in *. cbn [app] in *.
  cbn [split_re_loop]. rewrite Ha. cbn [rest].
  cbn [length] in Hlen. cbn [length]. rewrite Hlen.
  rewrite split_re_loop_skip.
  rewrite split_re_loop_plain by now apply plain_lines_weaken.
  cbn [last_of] in Hrest.
  rewrite (IH _ _ Hrest). now rewrite app_nil_r, rev_involutive.
Qed.

End FailureBlocks.

(** X20.  On an output laid out line by line (a text none of whose lines
    starts with a digit, then failures whose headers, a number, a closing
    parenthesis and a name, are lines of their own and whose bodies hold no
    line starting with a digit), the failure blocks of lines 259 and 260
    are the bodies of the failures, in order, and the rows of the HTML table
    are those of the bodies; the text before the first header is dropped. *)
Theorem failure_blocks_are_bodies pre bs :
  plain_lines None pre = true ->
  failures_ok (last_of None pre) bs ->
  failure_blocks (pre ++ failures_text bs) = List.map ft_body bs
  /\ snd (classify_all (failure_blocks (pre ++ failures_text bs)))
     = table_head
       ++ concat (List.map (fun b => snd (classify (ft_body b))) bs).
Proof.
  intros Hpre Hok.
  assert (Hb : failure_blocks (pre ++ failures_text bs) = List.map ft_body bs).
  { unfold failure_blocks, split_re.
    destruct (pre ++ failures_text bs) as [|c l] eqn:E.
    - apply app_eq_nil in E as [-> E]. destruct bs as [|b bs].
      + now rewrite attempt_header_nil.
      + exfalso. rewrite failures_text_cons in E.
        destruct Hok as (_ & Hn & _).
        destruct (@header_text_cons b Hn) as (d & h & Eh).
        rewrite Eh in E. discriminate.
    - rewrite <- E. rewrite (@split_re_loop_plain pre None [] (failures_text bs) Hpre).
      rewrite (@split_failures bs _ _ Hok). cbn [tl]. reflexivity. }
  split; [exact Hb|]. rewrite Hb. unfold classify_all.
  rewrite classify_all_from. cbn [fst snd]. now rewrite map_map.
Qed.

Lemma failure_blocks_witness :
  failure_blocks
    (js "There were 2 failures:" ++ [LF]
     ++ js "1) testA(FooTest)" ++ [LF]
     ++ js "java.lang.AssertionError: msg expected:<A> but was:<B>" ++ [LF]
     ++ js "2) testB(FooTest)" ++ [LF]
     ++ js "java.lang.IllegalStateException: close failed" ++ [LF]
     ++ [LF] ++ js "FAILURES!!!")
  = [[LF] ++ js "java.lang.AssertionError: msg expected:<A> but was:<B>"
          ++ [LF];
     [LF] ++ js "java.lang.IllegalStateException: close failed" ++ [LF]
          ++ [LF] ++ js "FAILURES!!!"].
Proof.
  apply (@failure_blocks_are_bodies
           (js "There were 2 failures:" ++ [LF])
           [FailureText (js "1") (js " testA(FooTest)")
              ([LF] ++ js "java.lang.AssertionError: msg expected:<A> but was:<B>"
               ++ [LF]);
            FailureText (js "2") (js " testB(FooTest)")
              ([LF] ++ js "java.lang.IllegalStateException: close failed"
               ++ [LF] ++ [LF] ++ js "FAILURES!!!")]).
  - reflexivity.
  - cbn [failures_ok]. repeat split; try reflexivity; try discriminate;
      repeat constructor.
Defined.
